(** * Handler registries of kopf: a shallow embedding of
    [kopf/_core/intents/registries.py] and the properties of its
    selection, matching, deduplication and id-generation functions. *)

From stdpp Require Import base option list strings gmap pretty.

Set Default Proof Using "Type".

(** ** Python values used throughout *)

(** [ids.HandlerId] is a [NewType] over [str]. *)
Abbreviation HandlerId := string (only parsing).

(** The result of the builtin [id(obj)]: the identity of an object. *)
Abbreviation ObjectId := Z (only parsing).

(** Truthiness of an [Optional[str]]: [None] and [''] are falsy. *)
Definition str_truthy (s : option string) : bool :=
  match s with
  | None => false
  | Some s => negb (String.eqb s "")
  end.

(** ** Identity deriver: [generate_id] and [get_callable_id] *)

Module Ids.

(** The callables [get_callable_id] tells apart, in the order of its
  [if]/[elif] chain. A [functools.partial] object is a [PyPartial];
  every other object that carries a [__wrapped__] attribute is a
  [PyWrapper], whatever else it is. *)
Inductive PyCallable : Type :=
| PyNone
| PyPartial (func : PyCallable)
| PyWrapper (wrapped : PyCallable)
| PyFunction (name qualname : string) (co_filename : string) (co_firstlineno : nat)
| PyMethod (qualname : string)
| PyOther (repr : string).

Inductive PyError : Type :=
| ValueError (msg : string).

Inductive result (A : Type) : Type :=
| Ok (a : A)
| Raise (e : PyError).
Arguments Ok {A} a.
Arguments Raise {A} e.

#[global] Instance result_ret : MRet result := λ A a, Ok a.

#[global] Instance result_bind : MBind result := λ A B k r,
match r with
| Ok a => k a
| Raise e => Raise e
end.

Fixpoint get_callable_id (c : PyCallable) : result string :=
match c with
| PyNone => Raise (ValueError "Cannot build a persistent id of None.")
| PyPartial func => get_callable_id func
| PyWrapper wrapped => get_callable_id wrapped
| PyFunction name qualname path line =>
    if String.eqb name "<lambda>"
    then Ok ("lambda:" +:+ path +:+ ":" +:+ pretty line)
    else Ok qualname
| PyMethod qualname => Ok qualname
| PyOther repr => Raise (ValueError ("Cannot get id of " +:+ repr +:+ "."))
end.

Definition generate_id (fn : PyCallable) (id : option string)
  (prefix suffix : option string) : result HandlerId :=
real_id ← match id with
          | Some id => Ok id
          | None => get_callable_id fn
          end;
let real_id := if negb (str_truthy suffix) then real_id
               else real_id +:+ "/" +:+ default "" suffix in
let real_id := if negb (str_truthy prefix) then real_id
               else default "" prefix +:+ "/" +:+ real_id in
Ok real_id.

(** The id generation as the specification words it: the suffix, when
  given, is appended as [id/suffix], then the prefix, when given, is
  prepended as [prefix/id]. *)
Definition spec_generate_id (fn : PyCallable) (id : option string)
  (prefix suffix : option string) : result HandlerId :=
real_id ← match id with
          | Some id => Ok id
          | None => get_callable_id fn
          end;
let real_id := match suffix with
               | Some s => real_id +:+ "/" +:+ s
               | None => real_id
               end in
let real_id := match prefix with
               | Some p => p +:+ "/" +:+ real_id
               | None => real_id
               end in
Ok real_id.

(** An empty affix counts as no affix at all. *)
Definition nonempty (s : option string) : option string :=
if str_truthy s then s else None.

(** A named (non-lambda, unwrapped) function or a method. *)
Definition named_function (c : PyCallable) : Prop :=
match c with
| PyFunction name _ _ _ => name ≠ "<lambda>"
| PyMethod _ => True
| _ => False
end.

End Ids.

(** ** Handlers of any kind, and the deduplicator *)

(** [execution.Handler]: every handler has an [id] and a callback [fn];
    of the callback only its object identity matters here. *)
Class Handler (H : Type) := {
  handler_id : H → HandlerId;
  handler_fn : H → ObjectId;
}.

Section deduplicated.
Context {H : Type} `{Handler H}.

(** [key = (id(handler.fn), handler.id)] *)
Definition handler_key (handler : H) : ObjectId * HandlerId :=
  (handler_fn handler, handler_id handler).

(** The generator's loop, with the local [seen_ids] as its state. *)
Fixpoint _deduplicated_loop (seen_ids : gset (ObjectId * HandlerId))
    (src : list H) : list H :=
  match src with
  | [] => []
  | handler :: src =>
      let key := handler_key handler in
      if decide (key ∈ seen_ids)
      then _deduplicated_loop seen_ids src
      else handler :: _deduplicated_loop ({[key]} ∪ seen_ids) src
  end.

Definition _deduplicated (src : list H) : list H :=
  _deduplicated_loop ∅ src.

(** The contract in the specification's words: the element at index
    [i] is kept exactly when no earlier element has its key. *)
Definition first_occurrence (src : list H) (i : nat) (handler : H) : bool :=
  bool_decide (handler_key handler ∉ handler_key <$> take i src).

Definition keep_first_occurrences (src : list H) : list H :=
  omap (λ ih : nat * H,
          if first_occurrence src ih.1 ih.2 then Some ih.2 else None)
       (imap pair src).
End deduplicated.

(** ** The generic registry *)

Module GenericRegistry.
Section generic.
Context {HandlerT : Type}.

(** The registry is its list [_handlers]. *)
Definition __init__ : list HandlerT := [].

Definition append (self : list HandlerT) (handler : HandlerT) : list HandlerT :=
  self ++ [handler].

Definition get_all_handlers (self : list HandlerT) : list HandlerT := self.
End generic.
End GenericRegistry.

(** ** The activity registry *)

Module ActivityRegistry.
Section activity.
Context {Activity : Type} `{EqDecision Activity}.

(** Modelled from the spec: [handlers.ActivityHandler] is declared
    outside this module; of its fields the registry reads [id], [fn],
    [activity] (an optional activity tag) and [_fallback]. *)
Record ActivityHandler := {
  id : HandlerId;
  fn : ObjectId;
  activity : option Activity;
  _fallback : bool;
}.

#[global] Instance ActivityHandler_Handler : Handler ActivityHandler :=
  {| handler_id := id; handler_fn := fn |}.

(** [handler.activity == activity] *)
Definition activity_eq (handler : ActivityHandler) (a : Activity) : bool :=
  bool_decide (activity handler = Some a).

(** The condition of the first loop; [and] binds tighter than [or]. *)
Definition regular_cond (a : Activity) (handler : ActivityHandler) : bool :=
  bool_decide (activity handler = None)
  || (activity_eq handler a && negb (_fallback handler)).

(** The condition of the second loop. *)
Definition fallback_cond (a : Activity) (handler : ActivityHandler) : bool :=
  bool_decide (activity handler = None)
  || (activity_eq handler a && _fallback handler).

(** First loop: yields the handlers and updates [found]. *)
Fixpoint regular_loop (a : Activity) (handlers : list ActivityHandler)
    (found : bool) : list ActivityHandler * bool :=
  match handlers with
  | [] => ([], found)
  | handler :: handlers =>
      if regular_cond a handler
      then let '(out, found) := regular_loop a handlers true in
           (handler :: out, found)
      else regular_loop a handlers found
  end.

Fixpoint fallback_loop (a : Activity) (handlers : list ActivityHandler)
    : list ActivityHandler :=
  match handlers with
  | [] => []
  | handler :: handlers =>
      if fallback_cond a handler
      then handler :: fallback_loop a handlers
      else fallback_loop a handlers
  end.

Definition iter_handlers (self : list ActivityHandler) (a : Activity)
    : list ActivityHandler :=
  let '(out, found) := regular_loop a self false in
  if negb found then out ++ fallback_loop a self else out.

Definition get_handlers (self : list ActivityHandler) (a : Activity)
    : list ActivityHandler :=
  _deduplicated (iter_handlers self a).

(** The two tiers in the specification's words. *)
Definition tag_matches (a : Activity) (handler : ActivityHandler) : bool :=
  bool_decide (activity handler = None) || activity_eq handler a.

Definition spec_regular (a : Activity) (handler : ActivityHandler) : bool :=
  negb (_fallback handler) && tag_matches a handler.

Definition spec_fallback (a : Activity) (handler : ActivityHandler) : bool :=
  _fallback handler && tag_matches a handler.

Definition spec_iter_handlers (self : list ActivityHandler) (a : Activity)
    : list ActivityHandler :=
  match List.filter (spec_regular a) self with
  | [] => List.filter (spec_fallback a) self
  | regular => regular
  end.
End activity.
Arguments ActivityHandler : clear implicits.
End ActivityRegistry.

(** ** The data model of the resource-bound registries *)

(** [filters.MetaFilterToken], with its aliases [filters.PRESENT] and
    [filters.ABSENT]. *)
Inductive MetaFilterToken : Type := PRESENT | ABSENT.

#[global] Instance MetaFilterToken_eq_dec : EqDecision MetaFilterToken.
Proof. solve_decision. Defined.

(** Modelled from the spec: [causes.WebhookType], the admission-webhook
    types, is declared outside this module, which names only its member
    [MUTATING]. *)
Inductive WebhookType : Type := VALIDATING | MUTATING.

#[global] Instance WebhookType_eq_dec : EqDecision WebhookType.
Proof. solve_decision. Defined.

(** [dicts.FieldPath]: a tuple of keys. *)
Abbreviation FieldPath := (list string) (only parsing).

(** What [dicts.resolve(d, field, absent)] returns: the marker
    [absent = _UNSET.token] or the object found at the path. *)
Inductive Resolved (V : Type) : Type :=
  | UNSET_token
  | Obj (v : V).
Arguments UNSET_token {V}.
Arguments Obj {V} v.

(** Modelled from the spec: the part of a body's ["metadata"] mapping that
    the label and annotation filters read; [None] is a missing key. *)
Record Metadata := {
  meta_labels : option (gmap string string);
  meta_annotations : option (gmap string string);
}.

(** The collaborators that live outside this module: the objects found in
    resource bodies with Python's [==] on them, the values of
    [cause.kwargs], the bodies with [dicts.resolve] and the lookup of
    their metadata, the resource selectors with [Selector.check], and the
    reasons of changing causes. *)
Class Externals := {
  Value : Type;
  py_eq : Value → Value → bool;
  py_none : Value;
  KwArg : Type;
  Body : Type;
  resolve : Body → FieldPath → Resolved Value;
  body_metadata : Body → option Metadata;
  Resource : Type;
  Selector : Type;
  Selector_eq_dec :: EqDecision Selector;
  Selector_countable :: Countable Selector;
  check : Selector → Resource → bool;
  Reason : Type;
  Reason_eq_dec :: EqDecision Reason;
}.

(** The mapping [kwargs] handed to the filter callables. *)
Abbreviation Kwargs := (gmap string KwArg) (only parsing).

Section model.
Context `{Externals}.

(** A value of [filters.MetaFilter]: a token, a callable or a string. *)
Inductive MetaFilterValue : Type :=
  | MetaToken (t : MetaFilterToken)
  | MetaCallable (f : option string → Kwargs → bool)
  | MetaStr (s : string).

(** [filters.ValueFilter]: [None], a token, a callable, or any other
    object to compare with. *)
Inductive ValueFilter : Type :=
  | FilterNone
  | FilterToken (t : MetaFilterToken)
  | FilterCallable (f : Resolved Value → Kwargs → bool)
  | FilterValue (v : Value).

(** Modelled from the spec: [handlers.ResourceHandler] and its
    subclasses are declared outside this module; these are the fields
    the registries and the matching functions read. Optional booleans
    are kept as their truth value. *)
Record ResourceHandler := {
  id : HandlerId;
  fn : ObjectId;
  selector : option Selector;
  labels : option (list (string * MetaFilterValue));
  annotations : option (list (string * MetaFilterValue));
  when : option (Kwargs → bool);
  field : option FieldPath;
  value : ValueFilter;
}.

Record SpawningHandler := {
  sh_base : ResourceHandler;
  sh_requires_finalizer : bool;
}.

Record ChangingHandler := {
  ch_base : ResourceHandler;
  ch_reason : option Reason;
  ch_initial : bool;
  ch_deleted : bool;
  ch_requires_finalizer : bool;
  field_needs_change : bool;
  old : ValueFilter;
  new : ValueFilter;
}.

Record WebhookHandler := {
  wh_base : ResourceHandler;
  wh_reason : option WebhookType;
  operations : option (list string);
  wh_subresource : option string;
}.

(** A [handlers.ResourceHandler] argument with its run-time class. *)
Inductive AnyHandler : Type :=
  | PlainH (h : ResourceHandler)
  | SpawningH (h : SpawningHandler)
  | ChangingH (h : ChangingHandler)
  | WebhookH (h : WebhookHandler).

Definition base (handler : AnyHandler) : ResourceHandler :=
  match handler with
  | PlainH h => h
  | SpawningH h => sh_base h
  | ChangingH h => ch_base h
  | WebhookH h => wh_base h
  end.

(** Modelled from the spec: [causes.ResourceCause] and its subclasses
    are declared outside this module; these are the fields read here. *)
Record ResourceCause := {
  resource : Resource;
  body : Body;
  cause_kwargs : Kwargs;
}.

Record ChangingCause := {
  cc_base : ResourceCause;
  cc_initial : bool;
  cc_reason : Reason;
  cc_old : Body;
  cc_new : Body;
  cc_deleted : bool;
}.

Record WebhookCause := {
  wc_base : ResourceCause;
  wc_reason : option WebhookType;
  wc_webhook : option HandlerId;
  wc_operation : option string;
  wc_subresource : option string;
}.

(** A [causes.ResourceCause] argument with its run-time class. *)
Inductive AnyCause : Type :=
  | PlainC (c : ResourceCause)
  | ChangingC (c : ChangingCause)
  | WebhookC (c : WebhookCause).

Definition cause_base (cause : AnyCause) : ResourceCause :=
  match cause with
  | PlainC c => c
  | ChangingC c => cc_base c
  | WebhookC c => wc_base c
  end.

(** The interface of the handler classes a [ResourceRegistry] holds. *)
Class ResourceHandlerT (HT : Type) := upcast : HT → AnyHandler.

#[global] Instance ResourceHandler_T : ResourceHandlerT ResourceHandler := PlainH.
#[global] Instance SpawningHandler_T : ResourceHandlerT SpawningHandler := SpawningH.
#[global] Instance ChangingHandler_T : ResourceHandlerT ChangingHandler := ChangingH.
#[global] Instance WebhookHandler_T : ResourceHandlerT WebhookHandler := WebhookH.

#[global] Instance ResourceHandlerT_Handler `{ResourceHandlerT HT} : Handler HT :=
  {| handler_id h := id (base (upcast h)); handler_fn h := fn (base (upcast h)) |}.
End model.

(** ** The predicate engine *)

Section engine.
Context `{Externals}.

(** [not kwargs] for the dict [kwargs]. *)
Definition dict_falsy (kwargs : Kwargs) : bool := bool_decide (size kwargs = 0).

(** [if not kwargs: kwargs.update(cause.kwargs)] *)
Definition ensure_kwargs (cause : AnyCause) (kwargs : Kwargs) : Kwargs :=
  if dict_falsy kwargs then cause_kwargs (cause_base cause) ∪ kwargs else kwargs.

(** A filter reads the shared [kwargs] and leaves it filled or not. *)
Definition Lazy (A : Type) : Type := Kwargs → A * Kwargs.

Definition const_ {A} (a : A) : Lazy A := λ kwargs, (a, kwargs).

(** [a and b] on filters that share [kwargs]: [b] runs only if [a] holds. *)
Definition and_ (a b : Lazy bool) : Lazy bool := λ kwargs,
  let '(x, kwargs) := a kwargs in
  if x then b kwargs else (false, kwargs).

(** A call with a fresh [kwargs = {}]. *)
Definition run {A} (m : Lazy A) : A := (m ∅).1.

(** Truthiness of an optional tuple and of an optional mapping. *)
Definition field_truthy (field : option FieldPath) : bool :=
  match field with
  | None | Some [] => false
  | Some (_ :: _) => true
  end.

Definition pattern_truthy (pattern : option (list (string * MetaFilterValue))) : bool :=
  match pattern with
  | None | Some [] => false
  | Some (_ :: _) => true
  end.

Definition _matches_resource (handler : AnyHandler) (resource : Resource) : bool :=
  match selector (base handler) with
  | None => true
  | Some selector => check selector resource
  end.

Definition _matches_subresource (handler : AnyHandler) (cause : AnyCause) : bool :=
  match handler, cause with
  | WebhookH handler, WebhookC cause =>
      bool_decide (wh_subresource handler = Some "*")
      || bool_decide (wh_subresource handler = wc_subresource cause)
  | _, _ => true
  end.

(** [value is token] *)
Definition meta_is (t : MetaFilterToken) (value : MetaFilterValue) : bool :=
  match value with
  | MetaToken t' => bool_decide (t' = t)
  | _ => false
  end.

(** [value != s] for a string [s] of the body. *)
Definition meta_ne (value : MetaFilterValue) (s : string) : bool :=
  match value with
  | MetaStr s' => negb (String.eqb s' s)
  | _ => true
  end.

(** [key in content] *)
Definition contains (content : gmap string string) (key : string) : bool :=
  bool_decide (is_Some (content !! key)).

Fixpoint _matches_metadata (pattern : list (string * MetaFilterValue))
    (content : gmap string string) (cause : AnyCause) : Lazy bool :=
  λ kwargs,
  match pattern with
  | [] => (true, kwargs)
  | (key, value) :: pattern =>
      if meta_is ABSENT value && negb (contains content key)
      then _matches_metadata pattern content cause kwargs
      else if meta_is PRESENT value && contains content key
      then _matches_metadata pattern content cause kwargs
      else match value with
           | MetaCallable value =>
               let kwargs := ensure_kwargs cause kwargs in
               if value (content !! key) kwargs
               then _matches_metadata pattern content cause kwargs
               else (false, kwargs)
           | _ =>
               match content !! key with
               | None => (false, kwargs)
               | Some s =>
                   if meta_ne value s then (false, kwargs)
                   else _matches_metadata pattern content cause kwargs
               end
           end
  end.

(** [cause.body.get('metadata', {})] *)
Definition get_metadata (cause : AnyCause) : Metadata :=
  default {| meta_labels := None; meta_annotations := None |}
          (body_metadata (body (cause_base cause))).

Definition _matches_labels (handler : AnyHandler) (cause : AnyCause) : Lazy bool :=
  λ kwargs,
  if negb (pattern_truthy (labels (base handler))) then (true, kwargs)
  else _matches_metadata (default [] (labels (base handler)))
                         (default ∅ (meta_labels (get_metadata cause)))
                         cause kwargs.

Definition _matches_annotations (handler : AnyHandler) (cause : AnyCause) : Lazy bool :=
  λ kwargs,
  if negb (pattern_truthy (annotations (base handler))) then (true, kwargs)
  else _matches_metadata (default [] (annotations (base handler)))
                         (default ∅ (meta_annotations (get_metadata cause)))
                         cause kwargs.

(** [value is absent] *)
Definition is_absent (value : Resolved Value) : bool :=
  match value with
  | UNSET_token => true
  | Obj _ => false
  end.

(** [a != b] on resolved values: the marker differs from every object. *)
Definition resolved_ne (a b : Resolved Value) : bool :=
  match a, b with
  | UNSET_token, UNSET_token => false
  | Obj a, Obj b => negb (py_eq a b)
  | _, _ => true
  end.

(** [filter is None], [filter is token], [callable(filter) and filter(...)] *)
Definition filter_is_none (filter : ValueFilter) : bool :=
  match filter with FilterNone => true | _ => false end.

Definition filter_is (t : MetaFilterToken) (filter : ValueFilter) : bool :=
  match filter with FilterToken t' => bool_decide (t' = t) | _ => false end.

Definition filter_call (filter : ValueFilter) (value : Resolved Value)
    (kwargs : Kwargs) : bool :=
  match filter with FilterCallable f => f value kwargs | _ => false end.

(** [filter == value]: tokens and callables equal no resolved value. *)
Definition filter_eq (filter : ValueFilter) (value : Resolved Value) : bool :=
  match filter, value with
  | FilterNone, Obj v => py_eq py_none v
  | FilterValue v', Obj v => py_eq v' v
  | _, _ => false
  end.

Definition _matches_field_values (handler : AnyHandler) (cause : AnyCause) : Lazy bool :=
  λ kwargs,
  if negb (field_truthy (field (base handler))) then (true, kwargs)
  else
    let kwargs := ensure_kwargs cause kwargs in
    let path := default [] (field (base handler)) in
    let values :=
      match cause with
      | ChangingC cause =>
          let old := resolve (cc_old cause) path in
          let new := resolve (cc_new cause) path in
          [new; old]
      | _ =>
          let val := resolve (body (cause_base cause)) path in
          [val]
      end in
    let value := value (base handler) in
    ((filter_is_none value && existsb (λ value, negb (is_absent value)) values)
     || (filter_is PRESENT value && existsb (λ value, negb (is_absent value)) values)
     || (filter_is ABSENT value && existsb is_absent values)
     || existsb (λ v, filter_call value v kwargs) values
     || existsb (λ v, filter_eq value v) values,
     kwargs).

Definition _matches_field_changes (handler : AnyHandler) (cause : AnyCause) : Lazy bool :=
  λ kwargs,
  match handler, cause with
  | ChangingH handler, ChangingC cause =>
      if negb (field_truthy (field (ch_base handler))) then (true, kwargs)
      else
        let kwargs := ensure_kwargs (ChangingC cause) kwargs in
        let path := default [] (field (ch_base handler)) in
        let old_ := resolve (cc_old cause) path in
        let new_ := resolve (cc_new cause) path in
        ((negb (field_needs_change handler) || resolved_ne old_ new_)
         && (filter_is_none (old handler)
             || (filter_is ABSENT (old handler) && is_absent old_)
             || (filter_is PRESENT (old handler) && negb (is_absent old_))
             || filter_call (old handler) old_ kwargs
             || filter_eq (old handler) old_)
         && (filter_is_none (new handler)
             || (filter_is ABSENT (new handler) && is_absent new_)
             || (filter_is PRESENT (new handler) && negb (is_absent new_))
             || filter_call (new handler) new_ kwargs
             || filter_eq (new handler) new_),
         kwargs)
  | _, _ => (true, kwargs)
  end.

Definition _matches_filter_callback (handler : AnyHandler) (cause : AnyCause) : Lazy bool :=
  λ kwargs,
  match when (base handler) with
  | None => (true, kwargs)
  | Some when =>
      let kwargs := ensure_kwargs cause kwargs in
      (when kwargs, kwargs)
  end.

Definition prematch (handler : AnyHandler) (cause : AnyCause) : bool :=
  run (and_ (const_ (_matches_resource handler (resource (cause_base cause))))
      (and_ (const_ (_matches_subresource handler cause))
      (and_ (_matches_labels handler cause)
      (and_ (_matches_annotations handler cause)
      (and_ (_matches_field_values handler cause)
            (_matches_filter_callback handler cause)))))).

Definition match_ (handler : AnyHandler) (cause : AnyCause) : bool :=
  run (and_ (const_ (_matches_resource handler (resource (cause_base cause))))
      (and_ (const_ (_matches_subresource handler cause))
      (and_ (_matches_labels handler cause)
      (and_ (_matches_annotations handler cause)
      (and_ (_matches_field_values handler cause)
      (and_ (_matches_field_changes handler cause)
            (_matches_filter_callback handler cause))))))).
End engine.

(** ** The resource registries *)

Module ResourceRegistry.
Section registry.
Context `{Externals} {HT : Type} `{!ResourceHandlerT HT}.

Definition get_all_selectors (self : list HT) : gset Selector :=
  list_to_set (omap (λ handler, selector (base (upcast handler)))
                    (GenericRegistry.get_all_handlers self)).

Fixpoint has_handlers (self : list HT) (resource : Resource) : bool :=
  match self with
  | [] => false
  | handler :: self =>
      if _matches_resource (upcast handler) resource then true
      else has_handlers self resource
  end.

Fixpoint iter_extra_fields (self : list HT) (resource : Resource) : list FieldPath :=
  match self with
  | [] => []
  | handler :: self =>
      if _matches_resource (upcast handler) resource
         && field_truthy (field (base (upcast handler)))
      then default [] (field (base (upcast handler))) :: iter_extra_fields self resource
      else iter_extra_fields self resource
  end.

Definition get_extra_fields (self : list HT) (resource : Resource) : gset FieldPath :=
  list_to_set (iter_extra_fields self resource).

(** The loop shared by the concrete [iter_handlers]: the handlers that
    pass [cond], in the order of [_handlers]. *)
Fixpoint yield_if (cond : HT → bool) (self : list HT) : list HT :=
  match self with
  | [] => []
  | handler :: self =>
      if cond handler then handler :: yield_if cond self
      else yield_if cond self
  end.

(** [handler.id not in excluded] *)
Definition not_excluded (excluded : gset HandlerId) (handler : HT) : bool :=
  bool_decide (id (base (upcast handler)) ∉ excluded).
End registry.
End ResourceRegistry.

Module IndexingRegistry.
Section registry.
Context `{Externals}.
Import ResourceRegistry.

Definition iter_handlers (self : list ResourceHandler) (cause : ResourceCause)
    (excluded : gset HandlerId) : list ResourceHandler :=
  yield_if (λ handler,
              if not_excluded excluded handler
              then match_ (PlainH handler) (PlainC cause)
              else false) self.

Definition get_handlers (self : list ResourceHandler) (cause : ResourceCause)
    (excluded : gset HandlerId) : list ResourceHandler :=
  _deduplicated (iter_handlers self cause excluded).
End registry.
End IndexingRegistry.

Module SpawningRegistry.
Section registry.
Context `{Externals}.
Import ResourceRegistry.

Definition iter_handlers (self : list SpawningHandler) (cause : ResourceCause)
    (excluded : gset HandlerId) : list SpawningHandler :=
  yield_if (λ handler,
              if not_excluded excluded handler
              then match_ (SpawningH handler) (PlainC cause)
              else false) self.

Definition get_handlers (self : list SpawningHandler) (cause : ResourceCause)
    (excluded : gset HandlerId) : list SpawningHandler :=
  _deduplicated (iter_handlers self cause excluded).

Fixpoint requires_finalizer (self : list SpawningHandler) (cause : ResourceCause)
    (excluded : gset HandlerId) : bool :=
  match self with
  | [] => false
  | handler :: self =>
      if not_excluded excluded handler
         && (sh_requires_finalizer handler
             && match_ (SpawningH handler) (PlainC cause))
      then true
      else requires_finalizer self cause excluded
  end.
End registry.
End SpawningRegistry.

Module ChangingRegistry.
Section registry.
Context `{Externals}.
Import ResourceRegistry.

(** [handler.reason is None or handler.reason == cause.reason] *)
Definition reason_ok (handler : ChangingHandler) (cause : ChangingCause) : bool :=
  bool_decide (ch_reason handler = None)
  || bool_decide (ch_reason handler = Some (cc_reason cause)).

(** The body of the loop of [iter_handlers]: is the handler yielded? *)
Definition yields (cause : ChangingCause) (excluded : gset HandlerId)
    (handler : ChangingHandler) : bool :=
  if not_excluded excluded handler then
    if reason_ok handler cause then
      if ch_initial handler && negb (cc_initial cause) then false
      else if ch_initial handler && cc_deleted cause && negb (ch_deleted handler) then false
      else if match_ (ChangingH handler) (ChangingC cause) then true
      else false
    else false
  else false.

Definition iter_handlers (self : list ChangingHandler) (cause : ChangingCause)
    (excluded : gset HandlerId) : list ChangingHandler :=
  yield_if (yields cause excluded) self.

Definition get_handlers (self : list ChangingHandler) (cause : ChangingCause)
    (excluded : gset HandlerId) : list ChangingHandler :=
  _deduplicated (iter_handlers self cause excluded).

(** The module-level [prematch], which the method of the same name
    shadows below. *)
Local Abbreviation prematch_handler := prematch (only parsing).

Fixpoint requires_finalizer (self : list ChangingHandler) (cause : AnyCause)
    (excluded : gset HandlerId) : bool :=
  match self with
  | [] => false
  | handler :: self =>
      if not_excluded excluded handler
         && (ch_requires_finalizer handler && prematch_handler (ChangingH handler) cause)
      then true
      else requires_finalizer self cause excluded
  end.

Fixpoint prematch (self : list ChangingHandler) (cause : ChangingCause) : bool :=
  match self with
  | [] => false
  | handler :: self =>
      if prematch_handler (ChangingH handler) (ChangingC cause) then true
      else prematch self cause
  end.

Definition get_resource_handlers (self : list ChangingHandler) (resource : Resource)
    : list ChangingHandler :=
  _deduplicated (yield_if (λ handler, _matches_resource (ChangingH handler) resource) self).
End registry.
End ChangingRegistry.

Module WebhooksRegistry.
Section registry.
Context `{Externals}.
Import ResourceRegistry.

(** [cause.reason is None or cause.reason == handler.reason] *)
Definition matching_reason (cause : WebhookCause) (handler : WebhookHandler) : bool :=
  bool_decide (wc_reason cause = None)
  || bool_decide (wc_reason cause = wh_reason handler).

(** [cause.webhook is None or cause.webhook == handler.id] *)
Definition matching_webhook (cause : WebhookCause) (handler : WebhookHandler) : bool :=
  bool_decide (wc_webhook cause = None)
  || bool_decide (wc_webhook cause = Some (id (wh_base handler))).

Definition non_mutating (handler : WebhookHandler) : bool :=
  negb (bool_decide (wh_reason handler = Some MUTATING)).

Definition non_deletion (cause : WebhookCause) : bool :=
  negb (bool_decide (wc_operation cause = Some "DELETE")).

(** [set(handler.operations or []) == {'DELETE'}] *)
Definition explicitly_for_deletion (handler : WebhookHandler) : bool :=
  bool_decide (list_to_set (default [] (operations handler))
               = ({[ "DELETE" ]} : gset string)).

(** The body of the loop of [iter_handlers]: is the handler yielded? *)
Definition yields (cause : WebhookCause) (excluded : gset HandlerId)
    (handler : WebhookHandler) : bool :=
  if not_excluded excluded handler then
    if matching_reason cause handler && matching_webhook cause handler then
      if non_mutating handler || non_deletion cause || explicitly_for_deletion handler then
        if match_ (WebhookH handler) (WebhookC cause) then true
        else false
      else false
    else false
  else false.

Definition iter_handlers (self : list WebhookHandler) (cause : WebhookCause)
    (excluded : gset HandlerId) : list WebhookHandler :=
  yield_if (yields cause excluded) self.

Definition get_handlers (self : list WebhookHandler) (cause : WebhookCause)
    (excluded : gset HandlerId) : list WebhookHandler :=
  _deduplicated (iter_handlers self cause excluded).
End registry.
End WebhooksRegistry.

(** ** The criteria in the specification's words *)

Section criteria.
Context `{Externals}.

(** The shared [kwargs] is either still empty or holds [cause.kwargs]. *)
Definition kwargs_ok (cause : AnyCause) (kwargs : Kwargs) : Prop :=
  kwargs = ∅ ∨ kwargs = cause_kwargs (cause_base cause).

(** A filter whose answer does not depend on whether [kwargs] has been
    filled yet, and which leaves [kwargs] empty or filled. *)
Definition stable (cause : AnyCause) (m : Lazy bool) : Prop :=
  ∀ kwargs, kwargs_ok cause kwargs →
    (m kwargs).1 = run m ∧ kwargs_ok cause (m kwargs).2.

(** One key of a label or annotation filter passes: the absent token
    wants the key missing, the present token wants it there, a callable
    must hold of the current value or [None], and any other value must be
    the value of the key. *)
Definition key_passes (cause : AnyCause) (content : gmap string string)
    (key : string) (value : MetaFilterValue) : Prop :=
  match value with
  | MetaToken ABSENT => content !! key = None
  | MetaToken PRESENT => is_Some (content !! key)
  | MetaCallable f => f (content !! key) (cause_kwargs (cause_base cause)) = true
  | MetaStr s => content !! key = Some s
  end.

(** A criterion [old], [new] or [value] of a handler accepts a resolved
    value: [None] accepts all, the tokens test presence, a callable is
    asked, anything else is compared. *)
Definition accepts (cause : AnyCause) (filter : ValueFilter)
    (value : Resolved Value) : bool :=
  match filter with
  | FilterNone => true
  | FilterToken PRESENT => negb (is_absent value)
  | FilterToken ABSENT => is_absent value
  | FilterCallable f => f value (cause_kwargs (cause_base cause))
  | FilterValue v =>
      match value with
      | Obj v' => py_eq v v'
      | UNSET_token => false
      end
  end.

(** Reason compatibility of a webhook handler as the specification
    words it: the handler's reason is unset or equals the cause's. *)
Definition spec_matching_reason (cause : WebhookCause) (handler : WebhookHandler) : bool :=
  bool_decide (wh_reason handler = None)
  || bool_decide (wh_reason handler = wc_reason cause).

(** The deletion-safety rule bars a handler for a cause. *)
Definition barred_on_deletion (cause : WebhookCause) (handler : WebhookHandler) : Prop :=
  wc_operation cause = Some "DELETE"
  ∧ wh_reason handler = Some MUTATING
  ∧ list_to_set (default [] (operations handler)) ≠ ({[ "DELETE" ]} : gset string).

(** The initial-handler exception skips a handler for a cause. *)
Definition skipped_as_initial (cause : ChangingCause) (handler : ChangingHandler) : Prop :=
  ch_initial handler = true
  ∧ (cc_initial cause = false
     ∨ (cc_deleted cause = true ∧ ch_deleted handler = false)).
End criteria.

(** ** Sample registries and causes *)

Module Sample.
Import Ids.

(** Handlers with nothing but an id and a callback identity. *)
Record Plain := { plain_id : HandlerId; plain_fn : ObjectId }.

#[global] Instance Plain_Handler : Handler Plain :=
  {| handler_id := plain_id; handler_fn := plain_fn |}.

Definition on_create : Plain := {| plain_id := "fn"; plain_fn := 100 |}.
Definition on_resume : Plain := {| plain_id := "fn"; plain_fn := 100 |}.
Definition other_fn : Plain := {| plain_id := "fn"; plain_fn := 200 |}.
Definition other_id : Plain := {| plain_id := "fn/sub"; plain_fn := 100 |}.

(** Activity tags; [AUTHENTICATION] is the one of the built-in logins. *)
Inductive Activity : Type := STARTUP | CLEANUP | AUTHENTICATION | PROBE.

#[global] Instance Activity_eq_dec : EqDecision Activity.
Proof. solve_decision. Defined.

Import ActivityRegistry.

Definition login_fallback_any : ActivityHandler Activity :=
  {| id := "login_fallback"; fn := 1; activity := None; _fallback := true |}.

Definition login_via_client : ActivityHandler Activity :=
  {| id := "login_via_client"; fn := 2;
     activity := Some AUTHENTICATION; _fallback := true |}.

Definition login_custom : ActivityHandler Activity :=
  {| id := "login_custom"; fn := 3;
     activity := Some AUTHENTICATION; _fallback := false |}.
End Sample.

(** A sample of the external collaborators: bodies are JSON-like trees,
    selectors and resources are kind names. *)
Module SampleExternals.
#[local] Set Warnings "-register-all".

Inductive Json : Type :=
  | JNull
  | JNum (n : Z)
  | JStr (s : string)
  | JObj (items : list (string * Json)).

Fixpoint json_eqb (a b : Json) : bool :=
  match a, b with
  | JNull, JNull => true
  | JNum x, JNum y => Z.eqb x y
  | JStr x, JStr y => String.eqb x y
  | JObj xs, JObj ys =>
      (fix items_eqb (xs ys : list (string * Json)) : bool :=
         match xs, ys with
         | [], [] => true
         | (k, v) :: xs, (k', v') :: ys =>
             String.eqb k k' && json_eqb v v' && items_eqb xs ys
         | _, _ => false
         end) xs ys
  | _, _ => false
  end.

Fixpoint json_get (key : string) (items : list (string * Json)) : option Json :=
  match items with
  | [] => None
  | (k, v) :: items => if String.eqb k key then Some v else json_get key items
  end.

(** Modelled from the spec: [dicts.resolve] is declared outside this
    module; it resolves the field path in the nested mapping, with the
    absent marker for missing paths. *)
Fixpoint json_resolve (d : Json) (path : list string) : Resolved Json :=
  match path with
  | [] => Obj d
  | key :: path =>
      match d with
      | JObj items =>
          match json_get key items with
          | Some d => json_resolve d path
          | None => UNSET_token
          end
      | _ => UNSET_token
      end
  end.

Definition json_strings (d : Json) : gmap string string :=
  match d with
  | JObj items =>
      list_to_map (omap (λ kv : string * Json,
                           match kv.2 with
                           | JStr s => Some (kv.1, s)
                           | _ => None
                           end) items)
  | _ => ∅
  end.

Definition json_metadata (d : Json) : option Metadata :=
  match json_resolve d ["metadata"] with
  | Obj (JObj items) =>
      Some {| meta_labels := json_strings <$> json_get "labels" items;
              meta_annotations := json_strings <$> json_get "annotations" items |}
  | _ => None
  end.

Inductive ChangeReason : Type := CREATE | UPDATE | DELETE | RESUME.

#[global] Instance ChangeReason_eq_dec : EqDecision ChangeReason.
Proof. solve_decision. Defined.

Definition externals : Externals :=
  {| Value := Json;
     py_eq := json_eqb;
     py_none := JNull;
     KwArg := Json;
     Body := Json;
     resolve := json_resolve;
     body_metadata := json_metadata;
     Resource := string;
     Selector := string;
     check selector resource := String.eqb selector resource;
     Reason := ChangeReason |}.
End SampleExternals.

(** Sample handlers and causes over the sample collaborators. *)
Module SampleResources.
Import SampleExternals.

#[local] Existing Instance externals.

Definition no_filters (handler_id : string) (callback : Z) : ResourceHandler :=
  {| id := handler_id; fn := callback; selector := None;
     labels := None; annotations := None; when := None;
     field := None; value := FilterNone |}.

(** A field handler on ["spec.x"] that needs a change of the field. *)
Definition on_spec_x : ChangingHandler :=
  {| ch_base := {| id := "on_spec_x"; fn := 10; selector := Some "Pod";
                   labels := None; annotations := None; when := None;
                   field := Some ["spec"; "x"]; value := FilterNone |};
     ch_reason := None; ch_initial := false; ch_deleted := false;
     ch_requires_finalizer := false;
     field_needs_change := true; old := FilterNone; new := FilterNone |}.

Definition spec_x (n : Z) : Json := JObj [("spec", JObj [("x", JNum n)])].

Definition pod_cause (body : Json) : ResourceCause :=
  {| resource := "Pod"; body := body; cause_kwargs := ∅ |}.

Definition update (old_body new_body : Json) : ChangingCause :=
  {| cc_base := pod_cause new_body; cc_initial := false; cc_reason := UPDATE;
     cc_old := old_body; cc_new := new_body; cc_deleted := false |}.

(** A handler for pods labelled [env=prod]. *)
Definition on_prod : ResourceHandler :=
  {| id := "on_prod"; fn := 11; selector := Some "Pod";
     labels := Some [("env", MetaStr "prod")]; annotations := Some [];
     when := None; field := None; value := FilterNone |}.

Definition labelled (env : string) : Json :=
  JObj [("metadata", JObj [("labels", JObj [("env", JStr env)])])].

(** A sub-handler: no selector and no filters. *)
Definition sub_handler : ResourceHandler := no_filters "fn/sub" 12.

(** Changing handlers marked as initial, without and with deletions. *)
Definition changing (handler_id : string) (initial deleted : bool) : ChangingHandler :=
  {| ch_base := no_filters handler_id 13;
     ch_reason := None; ch_initial := initial; ch_deleted := deleted;
     ch_requires_finalizer := false;
     field_needs_change := false; old := FilterNone; new := FilterNone |}.

Definition on_resume : ChangingHandler := changing "on_resume" true false.
Definition on_resume_deleted : ChangingHandler := changing "on_resume_deleted" true true.
Definition on_update : ChangingHandler := changing "on_update" false false.

Definition changing_cause (initial deleted : bool) : ChangingCause :=
  {| cc_base := pod_cause JNull; cc_initial := initial; cc_reason := RESUME;
     cc_old := JNull; cc_new := JNull; cc_deleted := deleted |}.

(** Webhook handlers without filters. *)
Definition hook (handler_id : string) (reason : option WebhookType)
    (ops : option (list string)) : WebhookHandler :=
  {| wh_base := no_filters handler_id 14;
     wh_reason := reason; operations := ops; wh_subresource := None |}.

Definition untyped_hook : WebhookHandler := hook "untyped" None None.
Definition validating_hook : WebhookHandler := hook "validate" (Some VALIDATING) None.
Definition mutating_hook : WebhookHandler := hook "mutate" (Some MUTATING) None.
Definition mutating_delete_hook : WebhookHandler :=
  hook "mutate_on_delete" (Some MUTATING) (Some ["DELETE"]).

(** The callback of [mutating_delete_hook] registered once more under the
    same id, for every subresource. *)
Definition mutating_delete_hook_again : WebhookHandler :=
  {| wh_base := no_filters "mutate_on_delete" 14;
     wh_reason := Some MUTATING; operations := Some ["DELETE"];
     wh_subresource := Some "*" |}.

Definition admission (reason : option WebhookType) (operation : option string)
    : WebhookCause :=
  {| wc_base := pod_cause JNull; wc_reason := reason; wc_webhook := None;
     wc_operation := operation; wc_subresource := None |}.
End SampleResources.

(** ** The rest of the module: unwrapping, watching, bootstrap *)

Module Callables.
Import Ids.

(** The target that the chain of [functools.partial] objects and
    [__wrapped__] attributes of a callable ends in: the object on which
    [get_callable_id] stops recursing. *)
Fixpoint innermost (c : PyCallable) : PyCallable :=
  match c with
  | PyPartial func => innermost func
  | PyWrapper wrapped => innermost wrapped
  | _ => c
  end.
End Callables.

Module WatchingRegistry.
Section registry.
Context `{Externals}.
Import ResourceRegistry.

Definition iter_handlers (self : list ResourceHandler) (cause : ResourceCause)
    (excluded : gset HandlerId) : list ResourceHandler :=
  yield_if (λ handler,
              if not_excluded excluded handler
              then match_ (PlainH handler) (PlainC cause)
              else false) self.

Definition get_handlers (self : list ResourceHandler) (cause : ResourceCause)
    (excluded : gset HandlerId) : list ResourceHandler :=
  _deduplicated (iter_handlers self cause excluded).
End registry.
End WatchingRegistry.

Module OperatorRegistry.
Section operator.
Context `{Externals} {Activity : Type}.

(** The six registries of an operator. *)
Record OperatorRegistry := {
  _activities : list (ActivityRegistry.ActivityHandler Activity);
  _indexing : list ResourceHandler;
  _watching : list ResourceHandler;
  _spawning : list SpawningHandler;
  _changing : list ChangingHandler;
  _webhooks : list WebhookHandler;
}.

Definition __init__ : OperatorRegistry :=
  {| _activities := GenericRegistry.__init__;
     _indexing := GenericRegistry.__init__;
     _watching := GenericRegistry.__init__;
     _spawning := GenericRegistry.__init__;
     _changing := GenericRegistry.__init__;
     _webhooks := GenericRegistry.__init__ |}.
End operator.
Arguments OperatorRegistry {_} Activity.
End OperatorRegistry.

Module SmartOperatorRegistry.
Import OperatorRegistry.

(** The module [piggybacking] lives outside this file: what its four
    probes answer, and the identities of its four login functions. *)
Record Piggybacking := {
  has_pykube : bool;
  has_client : bool;
  has_kubeconfig : bool;
  has_service_account : bool;
  login_via_pykube : ObjectId;
  login_via_client : ObjectId;
  login_with_kubeconfig : ObjectId;
  login_with_service_account : ObjectId;
}.

Section smart.
Context `{Externals} {Activity : Type} (AUTHENTICATION : Activity).
Context (piggybacking : Piggybacking).

Definition __init__ : OperatorRegistry Activity :=
  let self := OperatorRegistry.__init__ in
  let activities := _activities self in
  let activities :=
    if has_pykube piggybacking
    then GenericRegistry.append activities
           {| ActivityRegistry.id := "login_via_pykube";
              ActivityRegistry.fn := login_via_pykube piggybacking;
              ActivityRegistry.activity := Some AUTHENTICATION;
              ActivityRegistry._fallback := true |}
    else activities in
  let activities :=
    if has_client piggybacking
    then GenericRegistry.append activities
           {| ActivityRegistry.id := "login_via_client";
              ActivityRegistry.fn := login_via_client piggybacking;
              ActivityRegistry.activity := Some AUTHENTICATION;
              ActivityRegistry._fallback := true |}
    else activities in
  let thirdparties_present := has_pykube piggybacking || has_client piggybacking in
  let activities :=
    if negb thirdparties_present && has_kubeconfig piggybacking
    then GenericRegistry.append activities
           {| ActivityRegistry.id := "login_with_kubeconfig";
              ActivityRegistry.fn := login_with_kubeconfig piggybacking;
              ActivityRegistry.activity := Some AUTHENTICATION;
              ActivityRegistry._fallback := true |}
    else activities in
  let activities :=
    if negb thirdparties_present && has_service_account piggybacking
    then GenericRegistry.append activities
           {| ActivityRegistry.id := "login_with_service_account";
              ActivityRegistry.fn := login_with_service_account piggybacking;
              ActivityRegistry.activity := Some AUTHENTICATION;
              ActivityRegistry._fallback := true |}
    else activities in
  {| _activities := activities;
     _indexing := _indexing self;
     _watching := _watching self;
     _spawning := _spawning self;
     _changing := _changing self;
     _webhooks := _webhooks self |}.

(** The global [_default_registry] is the state of the two accessors. *)
Definition get_default_registry (_default_registry : option (OperatorRegistry Activity))
    : OperatorRegistry Activity * option (OperatorRegistry Activity) :=
  match _default_registry with
  | None => let registry := __init__ in (registry, Some registry)
  | Some registry => (registry, Some registry)
  end.

Definition set_default_registry (registry : OperatorRegistry Activity)
    (_default_registry : option (OperatorRegistry Activity))
    : option (OperatorRegistry Activity) :=
  Some registry.
End smart.
End SmartOperatorRegistry.

(** Sample environments of the bootstrap. *)
Module SampleBootstrap.
Import SmartOperatorRegistry.

(** Inside a cluster, with no client library installed. *)
Definition in_cluster : Piggybacking :=
  {| has_pykube := false; has_client := false;
     has_kubeconfig := false; has_service_account := true;
     login_via_pykube := 1001; login_via_client := 1002;
     login_with_kubeconfig := 1003; login_with_service_account := 1004 |}.

(** On a workstation with the client library and a kubeconfig. *)
Definition with_client : Piggybacking :=
  {| has_pykube := false; has_client := true;
     has_kubeconfig := true; has_service_account := false;
     login_via_pykube := 1001; login_via_client := 1002;
     login_with_kubeconfig := 1003; login_with_service_account := 1004 |}.
End SampleBootstrap.

(** More sample handlers over the sample collaborators. *)
Module SampleFinalizers.
Import SampleExternals SampleResources.

#[local] Existing Instance externals.

(** A deletion handler for pods, which needs a finalizer. *)
Definition on_delete : ChangingHandler :=
  {| ch_base := {| id := "on_delete"; fn := 15; selector := Some "Pod";
                   labels := None; annotations := None; when := None;
                   field := None; value := FilterNone |};
     ch_reason := Some DELETE; ch_initial := false; ch_deleted := false;
     ch_requires_finalizer := true;
     field_needs_change := false; old := FilterNone; new := FilterNone |}.
End SampleFinalizers.

(** * Properties *)

(** ** Identity deriver *)

Module IdsFacts.
Import Ids.

Lemma str_truthy_Some s : s ≠ "" → str_truthy (Some s) = true.
Proof.
  intros Hs. unfold str_truthy.
  destruct (String.eqb_spec s ""); [contradiction | reflexivity].
Qed.

Lemma get_callable_id_named c :
  named_function c → ∃ s, get_callable_id c = Ok s.
Proof.
  destruct c as [| | |name qualname path line|qualname|]; simpl; try tauto.
  - intros Hname. exists qualname.
    destruct (String.eqb_spec name "<lambda>"); [contradiction | reflexivity].
  - intros _. by exists qualname.
Qed.

(** C9, counterexample: with the explicit id ['a'] and an empty prefix
    and suffix, both given, the id stays ['a']; the claim's
    ['prefix/id/suffix'] would be ['/a/']. *)
Lemma generate_id_empty_affixes :
  generate_id (PyMethod "Cls.fn") (Some "a") (Some "") (Some "") = Ok "a"
  ∧ spec_generate_id (PyMethod "Cls.fn") (Some "a") (Some "") (Some "") = Ok "/a/"
  ∧ generate_id (PyMethod "Cls.fn") (Some "a") (Some "") (Some "")
    ≠ spec_generate_id (PyMethod "Cls.fn") (Some "a") (Some "") (Some "").
Proof. split; [reflexivity | split; [reflexivity | discriminate]]. Qed.

(** C9, amended: [generate_id] uses the explicit id when given and the
    id derived from the callable otherwise, then appends a non-empty
    suffix as [id/suffix], then prepends a non-empty prefix as
    [prefix/id]; a prefix or suffix that is [None] or empty leaves the id
    as it is. With both non-empty the result is [prefix/id/suffix]. A
    named function gets the same id on every derivation, and [None] as
    the callable with no explicit id raises an error. *)
Theorem generate_id_affixes (fn : PyCallable) (id : option string)
    (prefix suffix : option string) :
  generate_id fn id prefix suffix
    = spec_generate_id fn id (nonempty prefix) (nonempty suffix)
  ∧ (∀ i p s, p ≠ "" → s ≠ "" →
       generate_id fn (Some i) (Some p) (Some s)
       = Ok (p +:+ "/" +:+ i +:+ "/" +:+ s))
  ∧ (named_function fn →
       ∃ s, get_callable_id fn = Ok s ∧ generate_id fn None None None = Ok s)
  ∧ generate_id PyNone None prefix suffix
    = Raise (ValueError "Cannot build a persistent id of None.").
Proof.
  repeat split.
  - unfold generate_id, spec_generate_id, nonempty.
    destruct id as [i|]; [|destruct (get_callable_id fn)]; simpl;
      destruct suffix as [s|], prefix as [p|]; simpl;
      repeat match goal with
             | |- context [String.eqb ?x ""] => destruct (String.eqb_spec x "")
             end; subst; reflexivity.
  - intros i p s Hp Hs. unfold generate_id.
    rewrite !str_truthy_Some by assumption. reflexivity.
  - intros Hfn. destruct (get_callable_id_named fn Hfn) as [s Hs].
    exists s. split; [assumption|].
    unfold generate_id. rewrite Hs. reflexivity.
Qed.

Lemma generate_id_affixes_witness :
  generate_id (PyFunction "fn" "Cls.fn" "ops.py" 10) (Some "a") (Some "p") (Some "s")
    = Ok "p/a/s"
  ∧ ∃ s, get_callable_id (PyFunction "fn" "Cls.fn" "ops.py" 10) = Ok s
         ∧ generate_id (PyFunction "fn" "Cls.fn" "ops.py" 10) None None None = Ok s.
Proof.
  pose proof (generate_id_affixes (PyFunction "fn" "Cls.fn" "ops.py" 10)
                (Some "a") (Some "p") (Some "s")) as (_ & Hboth & Hnamed & _).
  split.
  - apply (Hboth "a" "p" "s"); discriminate.
  - apply Hnamed. simpl. discriminate.
Defined.
End IdsFacts.

(** ** Deduplicator *)

Section deduplicated_facts.
Context {H : Type} `{Handler H}.
Implicit Types (src pre : list H) (seen : gset (Z * string)).

Lemma _deduplicated_loop_sublist seen src :
  _deduplicated_loop seen src `sublist_of` src.
Proof.
  revert seen. induction src as [|h src IH]; intros seen; simpl; [done|].
  case_decide.
  - by apply sublist_cons.
  - by apply sublist_skip.
Qed.

Lemma _deduplicated_loop_fresh seen src k :
  k ∈ handler_key <$> _deduplicated_loop seen src → k ∉ seen.
Proof.
  revert seen. induction src as [|h src IH]; intros seen; simpl.
  - by intros ?%elem_of_nil.
  - case_decide as Hin; [by apply IH|].
    rewrite fmap_cons, elem_of_cons. intros [->|Hk]; [done|].
    apply IH in Hk. set_solver.
Qed.

Lemma _deduplicated_loop_NoDup seen src :
  NoDup (handler_key <$> _deduplicated_loop seen src).
Proof.
  revert seen. induction src as [|h src IH]; intros seen; simpl.
  - constructor.
  - case_decide; [by apply IH|].
    rewrite fmap_cons. constructor; [|by apply IH].
    intros Hk. apply _deduplicated_loop_fresh in Hk. set_solver.
Qed.

Lemma _deduplicated_loop_covers seen src h :
  h ∈ src →
  handler_key h ∈ seen ∨ handler_key h ∈ handler_key <$> _deduplicated_loop seen src.
Proof.
  revert seen. induction src as [|h' src IH]; intros seen; simpl.
  - by intros ?%elem_of_nil.
  - rewrite elem_of_cons. intros [->|Hin].
    + case_decide; [by left|]. right. rewrite fmap_cons. apply elem_of_cons. by left.
    + case_decide as Hseen; [by apply IH|].
      destruct (IH ({[handler_key h']} ∪ seen) Hin) as [Hk|Hk].
      * apply elem_of_union in Hk as [->%elem_of_singleton|Hk]; [|by left].
        right. rewrite fmap_cons. apply elem_of_cons. by left.
      * right. rewrite fmap_cons. apply elem_of_cons. by right.
Qed.

Lemma elem_of_deduplicated src h : h ∈ _deduplicated src → h ∈ src.
Proof. intros Hin. exact (elem_of_sublist _ _ _ Hin (_deduplicated_loop_sublist ∅ src)). Qed.

Lemma _deduplicated_loop_distinct seen src :
  NoDup (handler_key <$> src) →
  (∀ h, h ∈ src → handler_key h ∉ seen) →
  _deduplicated_loop seen src = src.
Proof.
  revert seen. induction src as [|h src IH]; intros seen Hnodup Hfresh; simpl; [done|].
  rewrite fmap_cons in Hnodup. apply NoDup_cons in Hnodup as [Hh Hnodup].
  rewrite decide_False by (apply Hfresh; by left).
  f_equal. apply IH; [done|].
  intros h' Hin. rewrite elem_of_union, elem_of_singleton. intros [Heq|Hin'].
  - apply Hh. rewrite <-Heq. by apply list_elem_of_fmap_2.
  - apply (Hfresh h'); [by right | done].
Qed.

(** The loop that has consumed [pre] keeps of [rest] the elements whose
    key occurs nowhere before them in [pre ++ rest]. *)
Lemma _deduplicated_loop_first_occurrences pre rest :
  _deduplicated_loop (list_to_set (handler_key <$> pre)) rest
  = omap (λ ih : nat * H,
            if first_occurrence (pre ++ rest) ih.1 ih.2 then Some ih.2 else None)
         (imap (λ i h, (length pre + i, h)) rest).
Proof.
  revert pre. induction rest as [|h rest IH]; intros pre; [done|].
  cbn [_deduplicated_loop imap omap]. cbv zeta.
  assert (Hstep : ∀ seen',
    seen' = list_to_set (handler_key <$> (pre ++ [h])) →
    _deduplicated_loop seen' rest
    = omap (λ ih : nat * H,
              if first_occurrence (pre ++ h :: rest) ih.1 ih.2 then Some ih.2 else None)
           (imap ((λ i h, (length pre + i, h)) ∘ S) rest)).
  { intros seen' ->. rewrite IH, <-(assoc_L (++)). simpl.
    f_equal. apply imap_ext. intros i x _. simpl.
    rewrite length_app. simpl. f_equal. lia. }
  assert (Hfirst : first_occurrence (pre ++ h :: rest) (length pre + 0) h
                   = bool_decide (handler_key h ∉ handler_key <$> pre)).
  { unfold first_occurrence. by rewrite Nat.add_0_r, take_app_length. }
  cbn [omap list_omap fst snd]. rewrite Hfirst.
  destruct (decide (handler_key h ∈ (list_to_set (handler_key <$> pre) : gset _)))
    as [Hin|Hin]; rewrite elem_of_list_to_set in Hin.
  - rewrite bool_decide_eq_false_2 by (by intros ?).
    apply Hstep. rewrite fmap_app, list_to_set_app_L. simpl.
    apply set_eq. intros k.
    rewrite !elem_of_union, elem_of_singleton, elem_of_list_to_set.
    split; [by left|]. intros [?|[->|[]%elem_of_empty]]; done.
  - rewrite bool_decide_eq_true_2 by done. f_equal.
    apply Hstep. rewrite fmap_app, list_to_set_app_L. simpl.
    apply set_eq. intros k.
    rewrite !elem_of_union, !elem_of_singleton.
    pose proof (not_elem_of_empty (C:=gset (Z * string)) k). tauto.
Qed.

(** C4: the deduplicator keeps, in their order, exactly the elements
    that are the first occurrence of their (callable identity, id) pair:
    the result is a subsequence of the input without repeated pairs that
    still has the pair of every input handler. Two handlers with the same
    id and distinct callables are both kept, and so are two handlers with
    the same callable and distinct ids. *)
Theorem deduplicated_first_occurrences src :
  _deduplicated src = keep_first_occurrences src
  ∧ _deduplicated src `sublist_of` src
  ∧ NoDup (handler_key <$> _deduplicated src)
  ∧ (∀ h, h ∈ src → handler_key h ∈ handler_key <$> _deduplicated src)
  ∧ (∀ h1 h2, handler_id h1 = handler_id h2 → handler_fn h1 ≠ handler_fn h2 →
       _deduplicated [h1; h2] = [h1; h2])
  ∧ (∀ h1 h2, handler_fn h1 = handler_fn h2 → handler_id h1 ≠ handler_id h2 →
       _deduplicated [h1; h2] = [h1; h2]).
Proof.
  split; [|split; [|split; [|split; [|split]]]].
  - unfold _deduplicated, keep_first_occurrences.
    exact (_deduplicated_loop_first_occurrences [] src).
  - apply _deduplicated_loop_sublist.
  - apply _deduplicated_loop_NoDup.
  - intros h Hin.
    destruct (_deduplicated_loop_covers ∅ src h Hin) as [Hk|Hk]; [set_solver|done].
  - intros h1 h2 Hid Hfn. unfold _deduplicated. simpl.
    rewrite decide_False by set_solver.
    rewrite decide_False; [done|].
    unfold handler_key. intros Hk. apply Hfn. set_solver.
  - intros h1 h2 Hfn Hid. unfold _deduplicated. simpl.
    rewrite decide_False by set_solver.
    rewrite decide_False; [done|].
    unfold handler_key. intros Hk. apply Hid. set_solver.
Qed.
End deduplicated_facts.

Lemma deduplicated_first_occurrences_witness :
  _deduplicated [Sample.on_create; Sample.other_fn; Sample.on_resume;
                 Sample.other_id; Sample.other_fn]
    = [Sample.on_create; Sample.other_fn; Sample.other_id]
  ∧ _deduplicated [Sample.on_create; Sample.other_fn]
    = [Sample.on_create; Sample.other_fn]
  ∧ _deduplicated [Sample.on_create; Sample.other_id]
    = [Sample.on_create; Sample.other_id].
Proof.
  pose proof (deduplicated_first_occurrences
                [Sample.on_create; Sample.other_fn; Sample.on_resume;
                 Sample.other_id; Sample.other_fn])
    as (Heq & _ & _ & Hin & Hfn & Hid).
  split; [|split].
  - rewrite Heq. vm_compute. reflexivity.
  - apply Hfn; [reflexivity | discriminate].
  - apply Hid; [reflexivity | discriminate].
Defined.

(** ** Activity registry *)

Module ActivityFacts.
Import ActivityRegistry.

Section activity_facts.
Context {Activity : Type} `{EqDecision Activity}.
Implicit Types (self : list (ActivityHandler Activity)) (a : Activity).

Lemma regular_loop_filter a self found :
  regular_loop a self found
  = (List.filter (regular_cond a) self,
     found || negb (bool_decide (List.filter (regular_cond a) self = []))).
Proof.
  revert found. induction self as [|h self IH]; intros found; simpl.
  - by rewrite orb_false_r.
  - destruct (regular_cond a h); rewrite IH; simpl; [|done].
    by rewrite orb_true_r.
Qed.

Lemma fallback_loop_filter a self :
  fallback_loop a self = List.filter (fallback_cond a) self.
Proof. induction self as [|h self IH]; simpl; [done|]. by rewrite IH. Qed.

(** What the two loops yield: the handlers passing the first
    condition, or else, when there are none, those passing the second. *)
Lemma iter_handlers_filter a self :
  iter_handlers self a
  = match List.filter (regular_cond a) self with
    | [] => List.filter (fallback_cond a) self
    | regular => regular
    end.
Proof.
  unfold iter_handlers. rewrite regular_loop_filter, fallback_loop_filter.
  destruct (List.filter (regular_cond a) self); done.
Qed.

Lemma filter_ext_in_list {A} (f g : A → bool) (l : list A) :
  (∀ x, x ∈ l → f x = g x) → List.filter f l = List.filter g l.
Proof.
  intros Hfg. apply List.filter_ext_in. intros x Hx. apply Hfg.
  by apply list_elem_of_In.
Qed.

(** As long as every fallback handler carries an activity tag, the
    loops select the two tiers that their comments announce. *)
Lemma iter_handlers_tagged_fallbacks a self :
  (∀ h, h ∈ self → _fallback h = true → activity h ≠ None) →
  iter_handlers self a = spec_iter_handlers self a.
Proof.
  intros Htagged. rewrite iter_handlers_filter. unfold spec_iter_handlers.
  assert (Hreg : List.filter (regular_cond a) self
                 = List.filter (spec_regular a) self).
  { apply filter_ext_in_list. intros h Hin.
    unfold regular_cond, spec_regular, tag_matches.
    specialize (Htagged h Hin).
    destruct (_fallback h); simpl.
    - rewrite bool_decide_eq_false_2 by auto. by rewrite andb_false_r.
    - by rewrite andb_true_r. }
  rewrite Hreg.
  destruct (List.filter (spec_regular a) self) eqn:Hnone; [|done].
  apply filter_ext_in_list. intros h Hin.
  assert (Hh : spec_regular a h = false).
  { destruct (spec_regular a h) eqn:Hr; [|done].
    assert (In h (List.filter (spec_regular a) self)) as Hin'.
    { apply List.filter_In. split; [by apply list_elem_of_In | done]. }
    rewrite Hnone in Hin'. destruct Hin'. }
  unfold fallback_cond, spec_fallback, tag_matches. unfold spec_regular, tag_matches in Hh.
  specialize (Htagged h Hin).
  destruct (_fallback h).
  - rewrite bool_decide_eq_false_2 by auto. simpl. by rewrite andb_true_r.
  - destruct (bool_decide (activity h = None)), (activity_eq h a);
      simpl in *; congruence.
Qed.
End activity_facts.

(** C1, the code at the failing input: a fallback handler with no
    activity tag passes the condition of the first loop. It is yielded
    together with a matching regular handler, where the two tiers of the
    claim give the regular handler alone; and once it is yielded the
    tagged fallback handlers are no longer reached. *)
Theorem iter_handlers_untagged_fallback :
  iter_handlers [Sample.login_fallback_any; Sample.login_custom] Sample.AUTHENTICATION
    = [Sample.login_fallback_any; Sample.login_custom]
  ∧ get_handlers [Sample.login_fallback_any; Sample.login_custom] Sample.AUTHENTICATION
    = [Sample.login_fallback_any; Sample.login_custom]
  ∧ spec_iter_handlers [Sample.login_fallback_any; Sample.login_custom] Sample.AUTHENTICATION
    = [Sample.login_custom]
  ∧ iter_handlers [Sample.login_fallback_any; Sample.login_via_client] Sample.AUTHENTICATION
    = [Sample.login_fallback_any]
  ∧ spec_iter_handlers [Sample.login_fallback_any; Sample.login_via_client] Sample.AUTHENTICATION
    = [Sample.login_fallback_any; Sample.login_via_client].
Proof. repeat split; vm_compute; reflexivity. Qed.
End ActivityFacts.

(** ** Predicate engine *)

Section engine_facts.
Context `{Externals}.
Implicit Types (handler : AnyHandler) (cause : AnyCause) (kwargs : gmap string KwArg).

Lemma dict_falsy_empty : dict_falsy (∅ : gmap string KwArg) = true.
Proof. unfold dict_falsy. by rewrite map_size_empty. Qed.

Lemma dict_falsy_true kwargs : dict_falsy kwargs = true → kwargs = ∅.
Proof.
  unfold dict_falsy. intros Hsize%bool_decide_eq_true. by apply map_size_empty_iff.
Qed.

(** Whenever a filter asks for [kwargs], it gets [cause.kwargs]. *)
Lemma ensure_kwargs_ok cause kwargs :
  kwargs_ok cause kwargs →
  ensure_kwargs cause kwargs = cause_kwargs (cause_base cause).
Proof.
  unfold ensure_kwargs. intros [->| ->].
  - rewrite dict_falsy_empty. apply (right_id_L ∅ (∪)).
  - destruct (dict_falsy _) eqn:Hfalsy; [|done].
    apply dict_falsy_true in Hfalsy. rewrite Hfalsy. apply (left_id_L ∅ (∪)).
Qed.

Lemma kwargs_ok_empty cause : kwargs_ok cause ∅.
Proof. by left. Qed.

Lemma kwargs_ok_filled cause : kwargs_ok cause (cause_kwargs (cause_base cause)).
Proof. by right. Qed.

Lemma kwargs_ok_ensure cause kwargs :
  kwargs_ok cause kwargs → kwargs_ok cause (ensure_kwargs cause kwargs).
Proof. intros Hok. rewrite ensure_kwargs_ok by done. apply kwargs_ok_filled. Qed.

Create HintDb kwargs.
Hint Resolve kwargs_ok_empty kwargs_ok_filled kwargs_ok_ensure : kwargs.

(** Stability follows from an answer that is stated without [kwargs]. *)
Lemma stable_intro cause (m : Lazy bool) (b : bool) :
  (∀ kwargs, kwargs_ok cause kwargs →
     (m kwargs).1 = b ∧ kwargs_ok cause (m kwargs).2) →
  stable cause m ∧ run m = b.
Proof.
  intros Hm.
  assert (run m = b) as Hrun by (apply (Hm ∅), kwargs_ok_empty).
  split; [|done]. intros kwargs Hok. rewrite Hrun. by apply Hm.
Qed.

Lemma stable_const cause (b : bool) : stable cause (const_ b).
Proof. intros kwargs Hok. by split. Qed.

Lemma stable_and cause (a b : Lazy bool) :
  stable cause a → stable cause b →
  stable cause (and_ a b) ∧ run (and_ a b) = run a && run b.
Proof.
  intros Ha Hb. apply stable_intro. intros kwargs Hok.
  unfold and_. destruct (Ha kwargs Hok) as [Ha1 Ha2].
  destruct (a kwargs) as [x kwargs']. simpl in *. subst x.
  destruct (run a); simpl; [|done].
  by apply Hb.
Qed.

(** *** Labels and annotations *)

Lemma contains_spec (content : gmap string string) key :
  contains content key = true ↔ is_Some (content !! key).
Proof. unfold contains. apply bool_decide_eq_true. Qed.

Lemma all_items_cons {A B} (P : A → B → Prop) (k : A) (v : B) (l : list (A * B)) :
  (∀ k' v', (k', v') ∈ (k, v) :: l → P k' v')
  ↔ P k v ∧ ∀ k' v', (k', v') ∈ l → P k' v'.
Proof.
  split.
  - intros Hall. split; [apply Hall; by left|].
    intros k' v' Hin. apply Hall. by right.
  - intros [Hkv Hl] k' v' [Heq|Hin]%elem_of_cons; [by simplify_eq|by apply Hl].
Qed.

Lemma not_contains (content : gmap string string) key :
  contains content key = false ↔ content !! key = None.
Proof.
  unfold contains. rewrite bool_decide_eq_false, eq_None_not_Some. done.
Qed.

(** The loop over the items of a pattern answers whether every item
    passes, whatever the state of [kwargs]. *)
Lemma _matches_metadata_passes pattern content cause kwargs :
  kwargs_ok cause kwargs →
  ((_matches_metadata pattern content cause kwargs).1 = true
     ↔ ∀ key value, (key, value) ∈ pattern → key_passes cause content key value)
  ∧ kwargs_ok cause (_matches_metadata pattern content cause kwargs).2.
Proof.
  revert kwargs. induction pattern as [|[key value] pattern IH]; intros kwargs Hok.
  { simpl. split; [|done]. split; [|done]. by intros _ ?? ?%elem_of_nil. }
  rewrite all_items_cons.
  pose proof (contains_spec content key) as Hin.
  pose proof (not_contains content key) as Hout.
  cbn [_matches_metadata].
  destruct value as [[]|f|s]; cbn [meta_is meta_ne key_passes andb negb] in *.
  - (* present *)
    rewrite bool_decide_eq_false_2 by done. cbn [andb].
    rewrite bool_decide_eq_true_2 by done. cbn [andb].
    destruct (contains content key) eqn:Hc.
    + destruct (IH kwargs Hok) as [IH1 IH2]. split; [|done]. rewrite IH1. tauto.
    + rewrite (proj1 Hout eq_refl). simpl. split; [|done].
      split; [done|]. intros [[s Hs] _]. done.
  - (* absent *)
    rewrite bool_decide_eq_true_2 by done. cbn [andb].
    destruct (contains content key) eqn:Hc; cbn [negb].
    + rewrite bool_decide_eq_false_2 by done. cbn [andb].
      destruct (proj1 Hin eq_refl) as [s Hs].
      rewrite Hs. simpl. split; [|done]. split; [done|]. by intros [? _].
    + destruct (IH kwargs Hok) as [IH1 IH2]. split; [|done]. rewrite IH1. tauto.
  - (* callable *)
    rewrite (ensure_kwargs_ok cause kwargs Hok).
    destruct (f (content !! key) (cause_kwargs (cause_base cause))) eqn:Hf.
    + destruct (IH _ (kwargs_ok_filled cause)) as [IH1 IH2]. split; [|done].
      rewrite IH1. tauto.
    + simpl. split; [|apply kwargs_ok_filled]. split; [done|]. by intros [? _].
  - (* a string *)
    destruct (content !! key) as [s'|] eqn:Hk.
    + destruct (String.eqb_spec s s') as [->|Hne]; cbn [negb].
      * destruct (IH kwargs Hok) as [IH1 IH2]. split; [|done]. rewrite IH1. tauto.
      * simpl. split; [|done]. split; [done|]. intros [? _]. simplify_eq.
    + simpl. split; [|done]. split; [done|]. by intros [? _].
Qed.
Lemma bool_eq_iff (b1 b2 : bool) (P : Prop) :
  (b1 = true ↔ P) → (b2 = true ↔ P) → b1 = b2.
Proof. destruct b1, b2; intuition congruence. Qed.

Lemma _matches_labels_passes handler cause kwargs :
  kwargs_ok cause kwargs →
  ((_matches_labels handler cause kwargs).1 = true
     ↔ ∀ key value, (key, value) ∈ default [] (labels (base handler)) →
         key_passes cause (default ∅ (meta_labels (get_metadata cause))) key value)
  ∧ kwargs_ok cause (_matches_labels handler cause kwargs).2.
Proof.
  intros Hok. unfold _matches_labels.
  destruct (labels (base handler)) as [[|item pattern]|] eqn:Hlabels;
    cbn [pattern_truthy negb default].
  - split; [|done]. split; [|done]. by intros _ ?? ?%elem_of_nil.
  - by apply _matches_metadata_passes.
  - split; [|done]. split; [|done]. by intros _ ?? ?%elem_of_nil.
Qed.

Lemma _matches_annotations_passes handler cause kwargs :
  kwargs_ok cause kwargs →
  ((_matches_annotations handler cause kwargs).1 = true
     ↔ ∀ key value, (key, value) ∈ default [] (annotations (base handler)) →
         key_passes cause (default ∅ (meta_annotations (get_metadata cause))) key value)
  ∧ kwargs_ok cause (_matches_annotations handler cause kwargs).2.
Proof.
  intros Hok. unfold _matches_annotations.
  destruct (annotations (base handler)) as [[|item pattern]|] eqn:Hannotations;
    cbn [pattern_truthy negb default].
  - split; [|done]. split; [|done]. by intros _ ?? ?%elem_of_nil.
  - by apply _matches_metadata_passes.
  - split; [|done]. split; [|done]. by intros _ ?? ?%elem_of_nil.
Qed.

Lemma _matches_labels_stable handler cause : stable cause (_matches_labels handler cause).
Proof.
  intros kwargs Hok.
  destruct (_matches_labels_passes handler cause kwargs Hok) as [Hk Hok'].
  destruct (_matches_labels_passes handler cause ∅ (kwargs_ok_empty cause)) as [H0 _].
  split; [|done]. exact (bool_eq_iff _ _ _ Hk H0).
Qed.

Lemma _matches_annotations_stable handler cause :
  stable cause (_matches_annotations handler cause).
Proof.
  intros kwargs Hok.
  destruct (_matches_annotations_passes handler cause kwargs Hok) as [Hk Hok'].
  destruct (_matches_annotations_passes handler cause ∅ (kwargs_ok_empty cause)) as [H0 _].
  split; [|done]. exact (bool_eq_iff _ _ _ Hk H0).
Qed.

(** C8: the label match, and likewise the annotation match, holds
    exactly when every key of the handler's filter mapping passes: the
    absent token wants the key missing from the resource's labels, the
    present token wants it there, a callable must return true on the
    current value (or [None]), and any other value must be the value of
    the key. An empty (or unset) filter mapping always matches. *)
Theorem matches_labels_annotations_spec handler cause kwargs :
  kwargs_ok cause kwargs →
  ((_matches_labels handler cause kwargs).1 = true
     ↔ ∀ key value, (key, value) ∈ default [] (labels (base handler)) →
         key_passes cause (default ∅ (meta_labels (get_metadata cause))) key value)
  ∧ ((_matches_annotations handler cause kwargs).1 = true
     ↔ ∀ key value, (key, value) ∈ default [] (annotations (base handler)) →
         key_passes cause (default ∅ (meta_annotations (get_metadata cause))) key value)
  ∧ (pattern_truthy (labels (base handler)) = false →
       (_matches_labels handler cause kwargs).1 = true)
  ∧ (pattern_truthy (annotations (base handler)) = false →
       (_matches_annotations handler cause kwargs).1 = true).
Proof.
  intros Hok. split; [|split; [|split]].
  - by apply _matches_labels_passes.
  - by apply _matches_annotations_passes.
  - intros Hempty. unfold _matches_labels. by rewrite Hempty.
  - intros Hempty. unfold _matches_annotations. by rewrite Hempty.
Qed.

(** *** Field values and field changes *)

Lemma _matches_field_values_stable handler cause :
  stable cause (_matches_field_values handler cause).
Proof.
  intros kwargs Hok. unfold run, _matches_field_values.
  destruct (field_truthy (field (base handler))); cbn [negb]; [|done].
  cbv zeta. rewrite !ensure_kwargs_ok by auto with kwargs.
  split; [done|]. cbn [snd]. auto with kwargs.
Qed.

(** The chain of alternatives on a criterion is its acceptance. *)
Lemma criterion_accepts cause (filter : ValueFilter) (value : Resolved Value) :
  filter_is_none filter
  || (filter_is ABSENT filter && is_absent value)
  || (filter_is PRESENT filter && negb (is_absent value))
  || filter_call filter value (cause_kwargs (cause_base cause))
  || filter_eq filter value
  = accepts cause filter value.
Proof.
  destruct filter as [|[]|f|v], value as [|v']; cbn; try reflexivity;
    by rewrite ?orb_false_r.
Qed.

Lemma _matches_field_changes_accepts (handler : ChangingHandler)
    (cause : ChangingCause) kwargs :
  field_truthy (field (ch_base handler)) = true →
  kwargs_ok (ChangingC cause) kwargs →
  (_matches_field_changes (ChangingH handler) (ChangingC cause) kwargs).1
  = (negb (field_needs_change handler)
     || resolved_ne (resolve (cc_old cause) (default [] (field (ch_base handler))))
                    (resolve (cc_new cause) (default [] (field (ch_base handler)))))
    && accepts (ChangingC cause) (old handler)
         (resolve (cc_old cause) (default [] (field (ch_base handler))))
    && accepts (ChangingC cause) (new handler)
         (resolve (cc_new cause) (default [] (field (ch_base handler)))).
Proof.
  intros Hfield Hok. unfold _matches_field_changes. rewrite Hfield. cbn [negb].
  cbv zeta. rewrite (ensure_kwargs_ok _ _ Hok). cbn [fst].
  by rewrite <-!(criterion_accepts (ChangingC cause)).
Qed.

Lemma _matches_field_changes_stable handler cause :
  stable cause (_matches_field_changes handler cause).
Proof.
  intros kwargs Hok. unfold run.
  destruct handler as [h|h|h|h], cause as [c|c|c]; try done.
  destruct (field_truthy (field (ch_base h))) eqn:Hfield.
  - rewrite !_matches_field_changes_accepts by auto with kwargs.
    split; [done|].
    unfold _matches_field_changes. rewrite Hfield. cbn. auto with kwargs.
  - unfold _matches_field_changes. rewrite Hfield. done.
Qed.

Lemma _matches_filter_callback_stable handler cause :
  stable cause (_matches_filter_callback handler cause).
Proof.
  intros kwargs Hok. unfold run, _matches_filter_callback.
  destruct (when (base handler)); [|done].
  cbv zeta. rewrite !ensure_kwargs_ok by auto with kwargs.
  split; [done|]. cbn [snd]. auto with kwargs.
Qed.
(** C6: for a changing cause and a changing handler scoped to a
    field, the field-change match holds exactly when the values resolved
    at the field in the old and in the new state differ, if
    [field_needs_change] is set, and the handler's [old] and [new]
    criteria accept the respective resolved value. With
    [field_needs_change] set and equal resolved values the match fails;
    with [field_needs_change] unset only the two criteria decide. *)
Theorem matches_field_changes_spec (handler : ChangingHandler)
    (cause : ChangingCause) kwargs :
  field_truthy (field (ch_base handler)) = true →
  kwargs_ok (ChangingC cause) kwargs →
  let path := default [] (field (ch_base handler)) in
  let old_ := resolve (cc_old cause) path in
  let new_ := resolve (cc_new cause) path in
  let result := (_matches_field_changes (ChangingH handler) (ChangingC cause) kwargs).1 in
  (result = true
     ↔ (field_needs_change handler = true → resolved_ne old_ new_ = true)
       ∧ accepts (ChangingC cause) (old handler) old_ = true
       ∧ accepts (ChangingC cause) (new handler) new_ = true)
  ∧ (field_needs_change handler = true → resolved_ne old_ new_ = false →
       result = false)
  ∧ (field_needs_change handler = false →
       result = accepts (ChangingC cause) (old handler) old_
                && accepts (ChangingC cause) (new handler) new_).
Proof.
  intros Hfield Hok path old_ new_ result.
  assert (result
          = (negb (field_needs_change handler) || resolved_ne old_ new_)
            && accepts (ChangingC cause) (old handler) old_
            && accepts (ChangingC cause) (new handler) new_) as ->.
  { by apply _matches_field_changes_accepts. }
  destruct (field_needs_change handler), (resolved_ne old_ new_),
    (accepts (ChangingC cause) (old handler) old_),
    (accepts (ChangingC cause) (new handler) new_); cbn; intuition congruence.
Qed.

(** *** [match] and [prematch] *)

Lemma run_and cause (a b : Lazy bool) :
  stable cause a → stable cause b → run (and_ a b) = run a && run b.
Proof. intros Ha Hb. exact (proj2 (stable_and cause a b Ha Hb)). Qed.

Lemma stable_and_ cause (a b : Lazy bool) :
  stable cause a → stable cause b → stable cause (and_ a b).
Proof. intros Ha Hb. exact (proj1 (stable_and cause a b Ha Hb)). Qed.

Hint Resolve stable_const stable_and_ _matches_labels_stable
  _matches_annotations_stable _matches_field_values_stable
  _matches_field_changes_stable _matches_filter_callback_stable : kwargs.

(** [prematch] is the conjunction of its six filters, each asked alone. *)
Lemma prematch_conjunction handler cause :
  prematch handler cause
  = _matches_resource handler (resource (cause_base cause))
    && (_matches_subresource handler cause
    && (run (_matches_labels handler cause)
    && (run (_matches_annotations handler cause)
    && (run (_matches_field_values handler cause)
    && run (_matches_filter_callback handler cause))))).
Proof.
  unfold prematch. by rewrite !(run_and cause) by auto 10 with kwargs.
Qed.

(** [match] is the conjunction of its seven filters, each asked alone. *)
Lemma match_conjunction handler cause :
  match_ handler cause
  = _matches_resource handler (resource (cause_base cause))
    && (_matches_subresource handler cause
    && (run (_matches_labels handler cause)
    && (run (_matches_annotations handler cause)
    && (run (_matches_field_values handler cause)
    && (run (_matches_field_changes handler cause)
    && run (_matches_filter_callback handler cause)))))).
Proof.
  unfold match_. by rewrite !(run_and cause) by auto 10 with kwargs.
Qed.

(** C3: [match] returns true exactly when [prematch] returns true and the
    field-change match returns true. The filter callables are functions
    of their arguments, hence pure. *)
Theorem match_iff_prematch_and_field_changes handler cause :
  (match_ handler cause = true
     ↔ prematch handler cause = true
       ∧ run (_matches_field_changes handler cause) = true)
  ∧ match_ handler cause
    = prematch handler cause && run (_matches_field_changes handler cause).
Proof.
  assert (match_ handler cause
          = prematch handler cause && run (_matches_field_changes handler cause))
    as Heq.
  { rewrite match_conjunction, prematch_conjunction.
    destruct (_matches_resource _ _), (_matches_subresource _ _),
      (run (_matches_labels _ _)), (run (_matches_annotations _ _)),
      (run (_matches_field_values _ _)), (run (_matches_field_changes _ _)),
      (run (_matches_filter_callback _ _)); reflexivity. }
  split; [|done]. rewrite Heq. apply andb_true_iff.
Qed.
End engine_facts.

Section engine_witnesses.
Import SampleExternals SampleResources.
#[local] Existing Instance externals.

Lemma matches_labels_annotations_spec_witness :
  (_matches_labels (PlainH on_prod) (PlainC (pod_cause (labelled "prod"))) ∅).1 = true
  ∧ (_matches_labels (PlainH on_prod) (PlainC (pod_cause (labelled "dev"))) ∅).1 = false
  ∧ (_matches_annotations (PlainH on_prod) (PlainC (pod_cause (labelled "dev"))) ∅).1 = true.
Proof.
  destruct (matches_labels_annotations_spec (PlainH on_prod)
              (PlainC (pod_cause (labelled "prod"))) ∅ (or_introl eq_refl))
    as (Hprod & _ & _ & _).
  destruct (matches_labels_annotations_spec (PlainH on_prod)
              (PlainC (pod_cause (labelled "dev"))) ∅ (or_introl eq_refl))
    as (Hdev & _ & _ & Hannotations).
  split; [|split].
  - apply Hprod.
    intros key value [Heq|[]%elem_of_nil]%elem_of_cons. by simplify_eq.
  - apply not_true_is_false. intros Hmatch.
    assert (Some "dev" = Some "prod") as Habs; [|done].
    apply (proj1 Hdev Hmatch "env" (MetaStr "prod")). by left.
  - apply Hannotations. reflexivity.
Defined.

Lemma matches_field_changes_spec_witness :
  (_matches_field_changes (ChangingH on_spec_x)
     (ChangingC (update (spec_x 1) (spec_x 1))) ∅).1 = false
  ∧ (_matches_field_changes (ChangingH on_spec_x)
       (ChangingC (update (spec_x 1) (spec_x 2))) ∅).1 = true.
Proof.
  destruct (matches_field_changes_spec on_spec_x (update (spec_x 1) (spec_x 1)) ∅
              eq_refl (or_introl eq_refl)) as (_ & Hsame & _).
  destruct (matches_field_changes_spec on_spec_x (update (spec_x 1) (spec_x 2)) ∅
              eq_refl (or_introl eq_refl)) as (Hchanged & _ & _).
  split.
  - apply Hsame; reflexivity.
  - apply Hchanged. repeat split.
Defined.
End engine_witnesses.

(** ** Resource registries *)

Module ResourceRegistryFacts.
Import ResourceRegistry.

Section registry_facts.
Context `{Externals} {HT : Type} `{!ResourceHandlerT HT}.
Implicit Types (self : list HT) (handler : HT).

Lemma yield_if_filter (cond : HT → bool) self :
  yield_if cond self = List.filter cond self.
Proof. induction self as [|h self IH]; simpl; [done|]. by rewrite IH. Qed.

Lemma elem_of_yield_if (cond : HT → bool) self handler :
  handler ∈ yield_if cond self ↔ handler ∈ self ∧ cond handler = true.
Proof.
  rewrite yield_if_filter, !list_elem_of_In. apply List.filter_In.
Qed.

Lemma yield_if_sublist (cond : HT → bool) self :
  yield_if cond self `sublist_of` self.
Proof.
  induction self as [|h self IH]; simpl; [done|].
  destruct (cond h); [by apply sublist_skip | by apply sublist_cons].
Qed.

Lemma not_excluded_spec (excluded : gset string) handler :
  not_excluded excluded handler = true ↔ id (base (upcast handler)) ∉ excluded.
Proof. apply bool_decide_eq_true. Qed.

Lemma _matches_resource_spec (h : AnyHandler) (resource : Resource) :
  _matches_resource h resource = true
  ↔ selector (base h) = None
    ∨ ∃ s, selector (base h) = Some s ∧ check s resource = true.
Proof.
  unfold _matches_resource. destruct (selector (base h)) as [s|].
  - split; [intros Hcheck; right; by exists s|].
    intros [?|(s' & ? & ?)]; by simplify_eq.
  - split; [by left|done].
Qed.

(** C10: [has_handlers] returns true exactly when some registered
    handler has no selector or a selector that accepts the resource.
    Hence a registry with a handler without selector has handlers for
    every resource, while [get_all_selectors] holds only the selectors
    that handlers do have. *)
Theorem has_handlers_spec self :
  (∀ resource,
     has_handlers self resource = true
     ↔ ∃ handler, handler ∈ self
         ∧ (selector (base (upcast handler)) = None
            ∨ ∃ s, selector (base (upcast handler)) = Some s
                   ∧ check s resource = true))
  ∧ ((∃ handler, handler ∈ self ∧ selector (base (upcast handler)) = None) →
       ∀ resource, has_handlers self resource = true)
  ∧ (∀ s, s ∈ get_all_selectors self
          ↔ ∃ handler, handler ∈ self ∧ selector (base (upcast handler)) = Some s).
Proof.
  assert (Hhas : ∀ resource,
     has_handlers self resource = true
     ↔ ∃ handler, handler ∈ self
         ∧ _matches_resource (upcast handler) resource = true).
  { intros resource. induction self as [|h self IH]; simpl.
    - split; [done|]. by intros (? & ?%elem_of_nil & _).
    - destruct (_matches_resource (upcast h) resource) eqn:Hh.
      + split; [|done]. intros _. exists h. split; [by left|done].
      + rewrite IH. split.
        * intros (h' & Hin & Hm). exists h'. split; [by right|done].
        * intros (h' & [->|Hin]%elem_of_cons & Hm); [congruence|by exists h']. }
  split; [|split].
  - intros resource. rewrite Hhas.
    by setoid_rewrite _matches_resource_spec.
  - intros (handler & Hin & Hnone) resource. apply Hhas.
    exists handler. split; [done|]. apply _matches_resource_spec. by left.
  - intros s. unfold get_all_selectors, GenericRegistry.get_all_handlers.
    rewrite elem_of_list_to_set, list_elem_of_omap. done.
Qed.
End registry_facts.
End ResourceRegistryFacts.

Module ChangingRegistryFacts.
Import ResourceRegistry ResourceRegistryFacts ChangingRegistry.

Section changing_facts.
Context `{Externals}.
Implicit Types (self : list ChangingHandler) (handler : ChangingHandler)
  (cause : ChangingCause) (excluded : gset string).

Lemma reason_ok_spec handler cause :
  reason_ok handler cause = true
  ↔ ch_reason handler = None ∨ ch_reason handler = Some (cc_reason cause).
Proof.
  unfold reason_ok. rewrite orb_true_iff, !bool_decide_eq_true. done.
Qed.

Lemma skipped_as_initial_yields cause excluded handler :
  skipped_as_initial cause handler → yields cause excluded handler = false.
Proof.
  unfold yields. intros (-> & [-> | [-> ->]]);
    destruct (not_excluded excluded handler), (reason_ok handler cause),
      (cc_initial cause); done.
Qed.

Lemma not_skipped_yields cause excluded handler :
  ¬ skipped_as_initial cause handler →
  yields cause excluded handler
  = not_excluded excluded handler && reason_ok handler cause
    && match_ (ChangingH handler) (ChangingC cause).
Proof.
  unfold yields, skipped_as_initial. intros Hskip.
  destruct (not_excluded excluded handler), (reason_ok handler cause);
    cbn [andb]; try done.
  destruct (ch_initial handler), (cc_initial cause), (cc_deleted cause),
    (ch_deleted handler); cbn [andb negb];
    try (by destruct (match_ _ _)); exfalso; apply Hskip; auto.
Qed.

(** C7: a handler marked initial is not yielded for a cause that is
    not initial; for an initial cause that is marked deleted it is not
    yielded either, unless it is marked for deletions too. In all
    other cases a registered handler is yielded exactly when its id is
    not excluded, its reason is unset or equals the cause's reason, and
    [match] holds. The handlers come in registration order. *)
Theorem iter_handlers_initial self cause excluded handler :
  (ch_initial handler = true → cc_initial cause = false →
     handler ∉ iter_handlers self cause excluded)
  ∧ (ch_initial handler = true → cc_initial cause = true →
     cc_deleted cause = true → ch_deleted handler = false →
     handler ∉ iter_handlers self cause excluded)
  ∧ (¬ skipped_as_initial cause handler →
       (handler ∈ iter_handlers self cause excluded
        ↔ handler ∈ self
          ∧ (id (ch_base handler) ∉ excluded)
          ∧ (ch_reason handler = None ∨ ch_reason handler = Some (cc_reason cause))
          ∧ match_ (ChangingH handler) (ChangingC cause) = true))
  ∧ iter_handlers self cause excluded `sublist_of` self.
Proof.
  unfold iter_handlers. split; [|split; [|split]].
  - intros Hinitial Hcause [_ Hyields]%elem_of_yield_if.
    rewrite skipped_as_initial_yields in Hyields; [done|].
    split; [done|by left].
  - intros Hinitial _ Hdeleted Hnot [_ Hyields]%elem_of_yield_if.
    rewrite skipped_as_initial_yields in Hyields; [done|].
    split; [done|by right].
  - intros Hskip. rewrite elem_of_yield_if, not_skipped_yields by done.
    rewrite !andb_true_iff, reason_ok_spec.
    rewrite (not_excluded_spec excluded handler). simpl. tauto.
  - apply yield_if_sublist.
Qed.
End changing_facts.
End ChangingRegistryFacts.

Module WebhooksRegistryFacts.
Import ResourceRegistry ResourceRegistryFacts WebhooksRegistry.

Section webhooks_facts.
Context `{Externals}.
Implicit Types (self : list WebhookHandler) (handler : WebhookHandler)
  (cause : WebhookCause) (excluded : gset string).

Lemma matching_reason_iff cause handler :
  matching_reason cause handler = true
  ↔ wc_reason cause = None ∨ wc_reason cause = wh_reason handler.
Proof.
  unfold matching_reason. rewrite orb_true_iff, !bool_decide_eq_true. done.
Qed.

Lemma matching_webhook_iff cause handler :
  matching_webhook cause handler = true
  ↔ wc_webhook cause = None ∨ wc_webhook cause = Some (id (wh_base handler)).
Proof.
  unfold matching_webhook. rewrite orb_true_iff, !bool_decide_eq_true. done.
Qed.

(** The deletion guard fails exactly for the barred handlers. *)
Lemma deletion_guard cause handler :
  non_mutating handler || non_deletion cause || explicitly_for_deletion handler = false
  ↔ barred_on_deletion cause handler.
Proof.
  unfold non_mutating, non_deletion, explicitly_for_deletion, barred_on_deletion.
  rewrite !orb_false_iff, !negb_false_iff, !bool_decide_eq_true, bool_decide_eq_false.
  tauto.
Qed.

(** The handlers that [iter_handlers] yields. *)
Lemma elem_of_iter_handlers self cause excluded handler :
  handler ∈ iter_handlers self cause excluded
  ↔ handler ∈ self
    ∧ (id (wh_base handler) ∉ excluded)
    ∧ matching_reason cause handler = true
    ∧ matching_webhook cause handler = true
    ∧ ¬ barred_on_deletion cause handler
    ∧ match_ (WebhookH handler) (WebhookC cause) = true.
Proof.
  unfold iter_handlers. rewrite elem_of_yield_if. unfold yields.
  pose proof (not_excluded_spec excluded handler) as Hexcluded.
  simpl in Hexcluded. rewrite <-deletion_guard, <-Hexcluded.
  destruct (not_excluded excluded handler), (matching_reason cause handler),
    (matching_webhook cause handler),
    (non_mutating handler || non_deletion cause || explicitly_for_deletion handler),
    (match_ _ _); cbn; intuition congruence.
Qed.

(** C2, amended: a webhook handler is reason-compatible exactly when
    the reason of the cause is unset or equals the handler's reason;
    only reason-compatible handlers are yielded, and a cause with no
    reason excludes no handler on reason grounds. *)
Theorem matching_reason_spec cause handler :
  (matching_reason cause handler = true
     ↔ wc_reason cause = None ∨ wc_reason cause = wh_reason handler)
  ∧ (∀ self excluded,
       handler ∈ iter_handlers self cause excluded
       ↔ handler ∈ self
         ∧ (id (wh_base handler) ∉ excluded)
         ∧ (wc_reason cause = None ∨ wc_reason cause = wh_reason handler)
         ∧ matching_webhook cause handler = true
         ∧ ¬ barred_on_deletion cause handler
         ∧ match_ (WebhookH handler) (WebhookC cause) = true)
  ∧ (wc_reason cause = None → matching_reason cause handler = true).
Proof.
  split; [|split].
  - apply matching_reason_iff.
  - intros self excluded. rewrite elem_of_iter_handlers, matching_reason_iff. done.
  - intros Hnone. apply matching_reason_iff. by left.
Qed.

Lemma get_handlers_covers self cause excluded handler :
  handler ∈ iter_handlers self cause excluded →
  ∃ handler', handler' ∈ get_handlers self cause excluded
              ∧ handler_key handler' = handler_key handler.
Proof.
  intros Hin. unfold get_handlers.
  destruct (_deduplicated_loop_covers ∅ _ _ Hin) as [[]%elem_of_empty|Hkey].
  apply list_elem_of_fmap in Hkey as (handler' & Hkey & Hin').
  by exists handler'.
Qed.

Lemma get_handlers_distinct self cause excluded :
  NoDup (handler_key <$> self) →
  get_handlers self cause excluded = iter_handlers self cause excluded.
Proof.
  intros Hnodup. unfold get_handlers. apply _deduplicated_loop_distinct.
  - eapply sublist_NoDup; [done|]. apply fmap_sublist, yield_if_sublist.
  - intros h _. apply not_elem_of_empty.
Qed.

(** C5, amended: for a cause whose operation is ['DELETE'], a mutating
    webhook handler whose operations, as a set, are not exactly
    [{'DELETE'}] is neither yielded by [iter_handlers] nor returned by
    [get_handlers], in particular one with unset operations. With the
    operations [{'DELETE'}] it is yielded subject to the other criteria,
    and so is every handler that is not mutating and every handler for a
    cause that is not a deletion. [get_handlers] returns yielded handlers
    only, and for each yielded handler one with the same (callable
    identity, id) pair: the handler itself when the pairs of the registered
    handlers are distinct. *)
Theorem iter_handlers_deletion_safety self cause excluded handler :
  (wc_operation cause = Some "DELETE" → wh_reason handler = Some MUTATING →
     list_to_set (default [] (operations handler)) ≠ ({[ "DELETE" ]} : gset string) →
     (handler ∉ iter_handlers self cause excluded)
     ∧ (handler ∉ get_handlers self cause excluded))
  ∧ (wc_operation cause = Some "DELETE" → wh_reason handler = Some MUTATING →
     operations handler = None →
     (handler ∉ iter_handlers self cause excluded)
     ∧ (handler ∉ get_handlers self cause excluded))
  ∧ (list_to_set (default [] (operations handler)) = ({[ "DELETE" ]} : gset string)
     ∨ wh_reason handler ≠ Some MUTATING
     ∨ wc_operation cause ≠ Some "DELETE" →
       (handler ∈ iter_handlers self cause excluded
        ↔ handler ∈ self
          ∧ (id (wh_base handler) ∉ excluded)
          ∧ matching_reason cause handler = true
          ∧ matching_webhook cause handler = true
          ∧ match_ (WebhookH handler) (WebhookC cause) = true))
  ∧ (list_to_set (default [] (operations handler)) = ({[ "DELETE" ]} : gset string)
     ∨ wh_reason handler ≠ Some MUTATING
     ∨ wc_operation cause ≠ Some "DELETE" →
       handler ∈ self →
       id (wh_base handler) ∉ excluded →
       matching_reason cause handler = true →
       matching_webhook cause handler = true →
       match_ (WebhookH handler) (WebhookC cause) = true →
       ∃ handler', handler' ∈ get_handlers self cause excluded
                   ∧ handler_key handler' = handler_key handler)
  ∧ (list_to_set (default [] (operations handler)) = ({[ "DELETE" ]} : gset string)
     ∨ wh_reason handler ≠ Some MUTATING
     ∨ wc_operation cause ≠ Some "DELETE" →
       NoDup (handler_key <$> self) →
       (handler ∈ get_handlers self cause excluded
        ↔ handler ∈ self
          ∧ (id (wh_base handler) ∉ excluded)
          ∧ matching_reason cause handler = true
          ∧ matching_webhook cause handler = true
          ∧ match_ (WebhookH handler) (WebhookC cause) = true))
  ∧ (handler ∈ get_handlers self cause excluded →
     handler ∈ iter_handlers self cause excluded).
Proof.
  assert (Hout : barred_on_deletion cause handler →
                 (handler ∉ iter_handlers self cause excluded)
                 ∧ (handler ∉ get_handlers self cause excluded)).
  { intros Hbarred.
    assert (handler ∉ iter_handlers self cause excluded) as Hiter.
    { intros Hin%elem_of_iter_handlers. tauto. }
    split; [done|]. intros Hin%elem_of_deduplicated. done. }
  assert (Hyielded : list_to_set (default [] (operations handler))
                       = ({[ "DELETE" ]} : gset string)
                     ∨ wh_reason handler ≠ Some MUTATING
                     ∨ wc_operation cause ≠ Some "DELETE" →
            (handler ∈ iter_handlers self cause excluded
             ↔ handler ∈ self
               ∧ (id (wh_base handler) ∉ excluded)
               ∧ matching_reason cause handler = true
               ∧ matching_webhook cause handler = true
               ∧ match_ (WebhookH handler) (WebhookC cause) = true)).
  { intros Hfree. rewrite elem_of_iter_handlers.
    assert (¬ barred_on_deletion cause handler) as Hbarred.
    { unfold barred_on_deletion. tauto. }
    tauto. }
  split; [|split; [|split; [|split; [|split]]]].
  - intros Hdelete Hmutating Hops. by apply Hout.
  - intros Hdelete Hmutating Hops. apply Hout.
    repeat split; [done..|]. rewrite Hops. simpl.
    intros Hset. assert ("DELETE" ∈ (∅ : gset string)) as Hin; [|set_solver].
    rewrite Hset. set_solver.
  - exact Hyielded.
  - intros Hfree Hin Hexcluded Hreason Hwebhook Hmatch.
    apply get_handlers_covers, Hyielded; [done|]. by repeat split.
  - intros Hfree Hnodup. rewrite get_handlers_distinct by done. by apply Hyielded.
  - apply elem_of_deduplicated.
Qed.
End webhooks_facts.
End WebhooksRegistryFacts.

Section registry_witnesses.
Import SampleExternals SampleResources.
Import ResourceRegistryFacts ChangingRegistryFacts WebhooksRegistryFacts.
#[local] Existing Instance externals.

Lemma has_handlers_spec_witness :
  ResourceRegistry.has_handlers [sub_handler] "Pod" = true
  ∧ ∀ s, s ∉ ResourceRegistry.get_all_selectors [sub_handler].
Proof.
  destruct (has_handlers_spec [sub_handler]) as (_ & Hall & Hselectors).
  split.
  - apply Hall. exists sub_handler. split; [by left | reflexivity].
  - intros s (h & Hin & Hs)%Hselectors.
    apply list_elem_of_singleton in Hin as ->. discriminate.
Defined.

Lemma iter_handlers_initial_witness :
  (on_resume ∉ ChangingRegistry.iter_handlers [on_resume] (changing_cause false false) ∅)
  ∧ (on_resume ∉ ChangingRegistry.iter_handlers [on_resume] (changing_cause true true) ∅)
  ∧ on_resume ∈ ChangingRegistry.iter_handlers [on_resume] (changing_cause true false) ∅
  ∧ on_resume_deleted
    ∈ ChangingRegistry.iter_handlers [on_resume_deleted] (changing_cause true true) ∅.
Proof.
  split; [|split; [|split]].
  - destruct (iter_handlers_initial [on_resume] (changing_cause false false) ∅ on_resume)
      as (Hskip & _). apply Hskip; reflexivity.
  - destruct (iter_handlers_initial [on_resume] (changing_cause true true) ∅ on_resume)
      as (_ & Hskip & _). apply Hskip; reflexivity.
  - destruct (iter_handlers_initial [on_resume] (changing_cause true false) ∅ on_resume)
      as (_ & _ & Hiff & _). apply Hiff.
    + intros (_ & [Hinitial | [Hdeleted _]]); discriminate.
    + repeat split; [by left | set_solver | by left].
  - destruct (iter_handlers_initial [on_resume_deleted] (changing_cause true true) ∅
                on_resume_deleted) as (_ & _ & Hiff & _). apply Hiff.
    + intros (_ & [Hinitial | [_ Hdeleted]]); discriminate.
    + repeat split; [by left | set_solver | by left].
Defined.

Lemma iter_handlers_deletion_safety_witness :
  (mutating_hook
     ∉ WebhooksRegistry.get_handlers [mutating_hook; validating_hook]
         (admission None (Some "DELETE")) ∅)
  ∧ mutating_delete_hook
    ∈ WebhooksRegistry.iter_handlers [mutating_hook; mutating_delete_hook]
        (admission None (Some "DELETE")) ∅
  ∧ mutating_delete_hook
    ∈ WebhooksRegistry.get_handlers [mutating_hook; mutating_delete_hook]
        (admission None (Some "DELETE")) ∅
  ∧ mutating_hook
    ∈ WebhooksRegistry.get_handlers [mutating_hook; validating_hook]
        (admission None (Some "UPDATE")) ∅
  ∧ validating_hook
    ∈ WebhooksRegistry.get_handlers [mutating_hook; validating_hook]
        (admission None (Some "DELETE")) ∅
  ∧ ∃ handler',
      handler' ∈ WebhooksRegistry.get_handlers
                   [mutating_delete_hook; mutating_delete_hook_again]
                   (admission None (Some "DELETE")) ∅
      ∧ handler_key handler' = handler_key mutating_delete_hook_again.
Proof.
  assert (Hdistinct2 : NoDup (handler_key <$> [mutating_hook; mutating_delete_hook])).
  { refine (bool_decide_unpack _ _). vm_compute. exact I. }
  assert (Hdistinct : NoDup (handler_key <$> [mutating_hook; validating_hook])).
  { refine (bool_decide_unpack _ _). vm_compute. exact I. }
  split; [|split; [|split; [|split; [|split]]]].
  - destruct (iter_handlers_deletion_safety [mutating_hook; validating_hook]
                (admission None (Some "DELETE")) ∅ mutating_hook) as (_ & Hunset & _).
    apply Hunset; reflexivity.
  - destruct (iter_handlers_deletion_safety [mutating_hook; mutating_delete_hook]
                (admission None (Some "DELETE")) ∅ mutating_delete_hook)
      as (_ & _ & Hiff & _).
    apply Hiff; [left; reflexivity |].
    repeat split; [by right; left | set_solver].
  - destruct (iter_handlers_deletion_safety [mutating_hook; mutating_delete_hook]
                (admission None (Some "DELETE")) ∅ mutating_delete_hook)
      as (_ & _ & _ & _ & Hiff & _).
    apply Hiff; [left; reflexivity | exact Hdistinct2 |].
    repeat split; [by right; left | set_solver].
  - destruct (iter_handlers_deletion_safety [mutating_hook; validating_hook]
                (admission None (Some "UPDATE")) ∅ mutating_hook)
      as (_ & _ & _ & _ & Hiff & _).
    apply Hiff; [right; right; discriminate | exact Hdistinct |].
    repeat split; [by left | set_solver].
  - destruct (iter_handlers_deletion_safety [mutating_hook; validating_hook]
                (admission None (Some "DELETE")) ∅ validating_hook)
      as (_ & _ & _ & _ & Hiff & _).
    apply Hiff; [right; left; discriminate | exact Hdistinct |].
    repeat split; [by right; left | set_solver].
  - destruct (iter_handlers_deletion_safety
                [mutating_delete_hook; mutating_delete_hook_again]
                (admission None (Some "DELETE")) ∅ mutating_delete_hook_again)
      as (_ & _ & _ & Hcovered & _).
    apply Hcovered; [left; reflexivity | by right; left | set_solver | reflexivity..].
Defined.

(** C5, counterexample: a mutating handler with the operations
    [{'DELETE'}] that passes every criterion for a deletion is yielded by
    [iter_handlers] but not returned by [get_handlers], because an earlier
    handler with the same callable and id is. *)
Lemma get_handlers_drops_duplicate :
  mutating_delete_hook_again
    ∈ WebhooksRegistry.iter_handlers [mutating_delete_hook; mutating_delete_hook_again]
        (admission None (Some "DELETE")) ∅
  ∧ (mutating_delete_hook_again
       ∉ WebhooksRegistry.get_handlers [mutating_delete_hook; mutating_delete_hook_again]
           (admission None (Some "DELETE")) ∅)
  ∧ WebhooksRegistry.get_handlers [mutating_delete_hook; mutating_delete_hook_again]
      (admission None (Some "DELETE")) ∅
    = [mutating_delete_hook].
Proof.
  assert (Hget : WebhooksRegistry.get_handlers
                   [mutating_delete_hook; mutating_delete_hook_again]
                   (admission None (Some "DELETE")) ∅
                 = [mutating_delete_hook]) by reflexivity.
  split; [|split; [|done]].
  - by right; left.
  - rewrite Hget. intros Hin%list_elem_of_singleton. discriminate.
Qed.

(** C2, counterexample: a webhook handler with no reason is not yielded
    for a cause with the reason [VALIDATING], where the same handler with
    that reason is; and a cause with no reason yields a handler that has
    a reason. *)
Lemma matching_reason_handler_unset :
  wh_reason untyped_hook = None
  ∧ spec_matching_reason (admission (Some VALIDATING) None) untyped_hook = true
  ∧ WebhooksRegistry.matching_reason (admission (Some VALIDATING) None) untyped_hook = false
  ∧ WebhooksRegistry.iter_handlers [untyped_hook] (admission (Some VALIDATING) None) ∅ = []
  ∧ WebhooksRegistry.iter_handlers [validating_hook] (admission (Some VALIDATING) None) ∅
    = [validating_hook]
  ∧ spec_matching_reason (admission None None) validating_hook = false
  ∧ WebhooksRegistry.iter_handlers [validating_hook] (admission None None) ∅
    = [validating_hook].
Proof. repeat split; vm_compute; reflexivity. Qed.

Lemma matching_reason_spec_witness :
  WebhooksRegistry.matching_reason (admission None None) validating_hook = true
  ∧ validating_hook
    ∈ WebhooksRegistry.iter_handlers [validating_hook] (admission None None) ∅.
Proof.
  destruct (matching_reason_spec (admission None None) validating_hook)
    as (_ & Hiff & Hunset).
  split.
  - apply Hunset. reflexivity.
  - apply Hiff. repeat split; [by left | set_solver | by left |].
    intros (Hdelete & _). discriminate.
Defined.
End registry_witnesses.

(** * Further properties of the module *)

(** ** Callable ids *)

Module CallableFacts.
Import Ids Callables.

Lemma get_callable_id_innermost c :
  get_callable_id c = get_callable_id (innermost c).
Proof. induction c; simpl; auto. Qed.

Lemma innermost_unwrapped c :
  match innermost c with
  | PyPartial _ | PyWrapper _ => False
  | _ => True
  end.
Proof. induction c; simpl; auto. Qed.

(** The id of a callable is the id of the target that its chain of
    partial applications and [__wrapped__] attributes ends in; hence a
    decorated or partially applied function keeps the id of the function. *)
Theorem get_callable_id_unwraps c :
  get_callable_id c = get_callable_id (innermost c)
  ∧ innermost (innermost c) = innermost c
  ∧ (∀ qualname, innermost c = PyMethod qualname → get_callable_id c = Ok qualname)
  ∧ (∀ name qualname path line,
       innermost c = PyFunction name qualname path line → name ≠ "<lambda>" →
       get_callable_id c = Ok qualname).
Proof.
  split; [apply get_callable_id_innermost|]. split; [|split].
  - pose proof (innermost_unwrapped c) as Hc.
    destruct (innermost c); simpl; done.
  - intros qualname Hc. by rewrite get_callable_id_innermost, Hc.
  - intros name qualname path line Hc Hname.
    rewrite get_callable_id_innermost, Hc. simpl.
    destruct (String.eqb_spec name "<lambda>"); done.
Qed.

Lemma get_callable_id_unwraps_witness :
  get_callable_id
    (PyWrapper (PyPartial (PyWrapper (PyFunction "fn" "Cls.fn" "ops.py" 10))))
  = Ok "Cls.fn".
Proof.
  destruct (get_callable_id_unwraps
              (PyWrapper (PyPartial (PyWrapper (PyFunction "fn" "Cls.fn" "ops.py" 10)))))
    as (_ & _ & _ & Hfunction).
  apply (Hfunction "fn" "Cls.fn" "ops.py" 10); [reflexivity | discriminate].
Defined.

(** [get_callable_id] raises exactly for the callables whose innermost
    target is [None] or an object that is neither a function nor a
    method. *)
Theorem get_callable_id_raises c :
  (∃ e, get_callable_id c = Raise e)
  ↔ innermost c = PyNone ∨ ∃ repr, innermost c = PyOther repr.
Proof.
  rewrite get_callable_id_innermost.
  pose proof (innermost_unwrapped c) as Hc.
  destruct (innermost c) as [| | |name qualname path line|qualname|repr]; simpl in *;
    try done.
  - split; [by left | by eexists].
  - destruct (String.eqb name "<lambda>");
      (split; [by intros [e ?] | by intros [?|[? ?]]]).
  - split; [by intros [e ?] | by intros [?|[? ?]]].
  - split; [right; by eexists | by eexists].
Qed.

(** [generate_id] raises only when no explicit id is given and the
    callable has no id, and then with the error of [get_callable_id]; with
    an explicit id it never raises, whatever the callable, even [None]. *)
Theorem generate_id_raises fn id prefix suffix e :
  (generate_id fn id prefix suffix = Raise e
     ↔ id = None ∧ get_callable_id fn = Raise e)
  ∧ (∀ i, ∃ real_id, generate_id fn (Some i) prefix suffix = Ok real_id).
Proof.
  unfold generate_id. split.
  - destruct id as [i|]; simpl.
    + split; [done | by intros [? _]].
    + destruct (get_callable_id fn) as [s|e']; simpl.
      * split; [done | by intros [_ ?]].
      * split; [intros ?; by simplify_eq | intros [_ ?]; by simplify_eq].
  - intros i. simpl. by eexists.
Qed.

(** Two anonymous functions of one file get the same id exactly when they
    start on the same line; their names and qualified names play no role. *)
Theorem lambda_ids_by_line qualname1 qualname2 path line1 line2 :
  get_callable_id (PyFunction "<lambda>" qualname1 path line1)
  = get_callable_id (PyFunction "<lambda>" qualname2 path line2)
  ↔ line1 = line2.
Proof.
  simpl. split.
  - intros Heq. simplify_eq. by apply (inj pretty).
  - by intros ->.
Qed.
End CallableFacts.

(** ** More on the deduplicator *)

Section deduplicated_more.
Context {H : Type} `{Handler H}.
Implicit Types (src more : list H) (seen : gset (Z * string)).

Lemma _deduplicated_loop_app seen src more :
  _deduplicated_loop seen (src ++ more)
  = _deduplicated_loop seen src
    ++ _deduplicated_loop (list_to_set (handler_key <$> src) ∪ seen) more.
Proof.
  revert seen. induction src as [|h src IH]; intros seen; simpl.
  - f_equal. set_solver.
  - case_decide as Hseen.
    + rewrite IH. do 2 f_equal. set_solver.
    + simpl. rewrite IH. do 3 f_equal. set_solver.
Qed.

(** Deduplicating twice is deduplicating once; a sequence whose
    (callable identity, id) pairs are all distinct is returned as it is;
    and the result is never longer than the input. *)
Theorem deduplicated_idempotent src :
  _deduplicated (_deduplicated src) = _deduplicated src
  ∧ (NoDup (handler_key <$> src) → _deduplicated src = src)
  ∧ length (_deduplicated src) ≤ length src.
Proof.
  split; [|split].
  - apply _deduplicated_loop_distinct; [apply _deduplicated_loop_NoDup|].
    intros h _. apply not_elem_of_empty.
  - intros Hnodup. apply _deduplicated_loop_distinct; [done|].
    intros h _. apply not_elem_of_empty.
  - apply sublist_length, _deduplicated_loop_sublist.
Qed.

(** Handlers that come later in the sequence never change what is kept
    of the earlier ones: the result for a sequence is a prefix of the
    result for any extension, and one more handler is added at the end
    exactly when its pair has not occurred before. *)
Theorem deduplicated_app src more h :
  _deduplicated src `prefix_of` _deduplicated (src ++ more)
  ∧ _deduplicated (src ++ [h])
    = _deduplicated src
      ++ (if bool_decide (handler_key h ∈ handler_key <$> src) then [] else [h]).
Proof.
  unfold _deduplicated. split.
  - rewrite _deduplicated_loop_app. by eexists.
  - rewrite _deduplicated_loop_app. f_equal. simpl.
    case_decide as Hin; rewrite elem_of_union, elem_of_list_to_set in Hin.
    + rewrite bool_decide_eq_true_2; [done|]. destruct Hin as [?|[]%elem_of_empty]. done.
    + rewrite bool_decide_eq_false_2; [done|]. intros ?. apply Hin. by left.
Qed.
End deduplicated_more.

Lemma deduplicated_idempotent_witness :
  _deduplicated [Sample.on_create; Sample.other_fn; Sample.other_id]
  = [Sample.on_create; Sample.other_fn; Sample.other_id].
Proof.
  destruct (deduplicated_idempotent [Sample.on_create; Sample.other_fn; Sample.other_id])
    as (_ & Hdistinct & _).
  apply Hdistinct. refine (bool_decide_unpack _ _). vm_compute. exact I.
Defined.

(** ** More on the activity registry *)

Module ActivityMore.
Import ActivityRegistry ActivityFacts.

Section activity_more.
Context {Activity : Type} `{EqDecision Activity}.
Implicit Types (self : list (ActivityHandler Activity)) (a : Activity).

Lemma list_filter_sublist {A} (f : A → bool) (l : list A) :
  List.filter f l `sublist_of` l.
Proof.
  induction l as [|x l IH]; simpl; [done|].
  destruct (f x); [by apply sublist_skip | by apply sublist_cons].
Qed.

Lemma elem_of_list_filter {A} (f : A → bool) (l : list A) x :
  x ∈ List.filter f l ↔ x ∈ l ∧ f x = true.
Proof. rewrite !list_elem_of_In. apply List.filter_In. Qed.

Lemma list_filter_nil {A} (f : A → bool) (l : list A) :
  List.filter f l = [] ↔ ∀ x, x ∈ l → f x = false.
Proof.
  induction l as [|x l IH]; simpl.
  - split; [by intros _ ? ?%elem_of_nil | done].
  - destruct (f x) eqn:Hx.
    + split; [done|]. intros Hall. specialize (Hall x). rewrite Hx in Hall.
      assert (true = false); [apply Hall; by left | done].
    + rewrite IH. split.
      * intros Hall y [->|Hin]%elem_of_cons; [done | by apply Hall].
      * intros Hall y Hin. apply Hall. by right.
Qed.

Lemma tag_matches_spec a (h : ActivityHandler Activity) :
  tag_matches a h = true ↔ activity h = None ∨ activity h = Some a.
Proof.
  unfold tag_matches, activity_eq. rewrite orb_true_iff, !bool_decide_eq_true. done.
Qed.

(** The handlers yielded for an activity come in registration order, and
    each of them has no activity tag or the requested one; nothing is
    yielded exactly when no registered handler has such a tag;
    [get_handlers] returns yielded handlers only. *)
Theorem iter_handlers_tags self a :
  iter_handlers self a `sublist_of` self
  ∧ (∀ h, h ∈ iter_handlers self a → activity h = None ∨ activity h = Some a)
  ∧ (iter_handlers self a = []
     ↔ ∀ h, h ∈ self → activity h ≠ None ∧ activity h ≠ Some a)
  ∧ (∀ h, h ∈ get_handlers self a → h ∈ iter_handlers self a).
Proof.
  assert (Hcond : ∀ h, regular_cond a h = true ∨ fallback_cond a h = true
                       ↔ tag_matches a h = true).
  { intros h. unfold regular_cond, fallback_cond, tag_matches.
    destruct (bool_decide (activity h = None)), (activity_eq h a), (_fallback h);
      simpl; intuition congruence. }
  split; [|split; [|split]].
  - rewrite iter_handlers_filter.
    destruct (List.filter (regular_cond a) self) eqn:Hregular.
    + apply list_filter_sublist.
    + rewrite <-Hregular. apply list_filter_sublist.
  - intros h. rewrite iter_handlers_filter. intros Hin.
    apply tag_matches_spec, Hcond.
    destruct (List.filter (regular_cond a) self) eqn:Hregular.
    + apply elem_of_list_filter in Hin. tauto.
    + rewrite <-Hregular in Hin. apply elem_of_list_filter in Hin. tauto.
  - rewrite iter_handlers_filter.
    assert (Hnone : (∀ h, h ∈ self → activity h ≠ None ∧ activity h ≠ Some a)
                    ↔ ∀ h, h ∈ self → tag_matches a h = false).
    { split; intros Hall h Hin; specialize (Hall h Hin).
      - apply not_true_is_false. rewrite tag_matches_spec. tauto.
      - apply not_true_iff_false in Hall. rewrite tag_matches_spec in Hall. tauto. }
    rewrite Hnone.
    destruct (List.filter (regular_cond a) self) eqn:Hregular.
    + rewrite list_filter_nil in Hregular. rewrite list_filter_nil.
      split; intros Hall h Hin.
      * apply not_true_is_false. rewrite <-Hcond.
        rewrite (Hregular h Hin), (Hall h Hin). intuition congruence.
      * specialize (Hall h Hin). apply not_true_iff_false in Hall.
        rewrite <-Hcond in Hall. destruct (fallback_cond a h); tauto.
    + split; [done|]. intros Hall.
      assert (a0 ∈ List.filter (regular_cond a) self) as Hin.
      { rewrite Hregular. by left. }
      apply elem_of_list_filter in Hin as [Hin Hr].
      specialize (Hall a0 Hin). apply not_true_iff_false in Hall.
      rewrite <-Hcond in Hall. tauto.
  - intros h. apply elem_of_deduplicated.
Qed.
End activity_more.

Lemma iter_handlers_tagged_fallbacks_witness :
  iter_handlers [Sample.login_via_client; Sample.login_custom] Sample.AUTHENTICATION
  = [Sample.login_custom].
Proof.
  rewrite (iter_handlers_tagged_fallbacks Sample.AUTHENTICATION
             [Sample.login_via_client; Sample.login_custom]).
  - reflexivity.
  - intros h [->|[->|[]%elem_of_nil]%elem_of_cons]%elem_of_cons; discriminate.
Defined.
End ActivityMore.

Lemma iter_handlers_tags_witness :
  ActivityRegistry.activity Sample.login_custom = None
  ∨ ActivityRegistry.activity Sample.login_custom = Some Sample.AUTHENTICATION.
Proof.
  destruct (ActivityMore.iter_handlers_tags
              [Sample.login_via_client; Sample.login_custom] Sample.AUTHENTICATION)
    as (_ & Htags & _).
  apply Htags. by left.
Defined.

(** ** The bootstrapped registry *)

Module BootstrapFacts.
Import ActivityRegistry ActivityFacts ActivityMore.
Import OperatorRegistry SmartOperatorRegistry.

Section bootstrap_facts.
Context `{Externals} {Activity : Type} `{EqDecision Activity}.
Context (AUTHENTICATION : Activity) (piggybacking : Piggybacking).

Local Abbreviation builtin := (_activities (__init__ AUTHENTICATION piggybacking)).

Lemma builtin_fallback_tagged h :
  h ∈ builtin → _fallback h = true ∧ activity h = Some AUTHENTICATION.
Proof.
  unfold __init__, GenericRegistry.append. cbn.
  destruct (has_pykube piggybacking), (has_client piggybacking),
    (has_kubeconfig piggybacking), (has_service_account piggybacking); cbn;
    rewrite ?elem_of_cons, elem_of_nil; intros Hin;
    repeat (destruct Hin as [->|Hin]; [done|]); done.
Qed.

(** Every built-in login handler is a fallback handler for the
    authentication activity, and their ids are pairwise distinct. The
    handlers for a kubeconfig and a service account are registered only
    when neither client library is present, and no handler at all exactly
    when all four probes fail. The resource registries start empty. *)
Theorem builtin_logins :
  (∀ h, h ∈ builtin → _fallback h = true ∧ activity h = Some AUTHENTICATION)
  ∧ NoDup (id <$> builtin)
  ∧ (∀ h, h ∈ builtin →
       id h = "login_with_kubeconfig" ∨ id h = "login_with_service_account" →
       has_pykube piggybacking = false ∧ has_client piggybacking = false)
  ∧ (builtin = []
     ↔ has_pykube piggybacking = false ∧ has_client piggybacking = false
       ∧ has_kubeconfig piggybacking = false
       ∧ has_service_account piggybacking = false)
  ∧ _changing (__init__ AUTHENTICATION piggybacking) = []
  ∧ _webhooks (__init__ AUTHENTICATION piggybacking) = [].
Proof.
  split; [exact builtin_fallback_tagged|].
  unfold __init__, GenericRegistry.append. cbn.
  destruct (has_pykube piggybacking), (has_client piggybacking),
    (has_kubeconfig piggybacking), (has_service_account piggybacking); cbn;
    (split; [refine (bool_decide_unpack _ _); vm_compute; exact I|]);
    (split; [intros h; rewrite ?elem_of_cons, elem_of_nil; intros Hin [Hid|Hid];
             repeat (destruct Hin as [->|Hin]; [try done|]); done|]);
    (split; [split; [try done; tauto | by intros (? & ? & ? & ?)]|]); done.
Qed.

(** Login handlers registered by the user take precedence: once the
    built-in handlers are followed by user handlers, which are no fallback
    handlers, an authentication yields the user handlers with no tag or the
    authentication tag, and the built-in ones only if there is none. *)
Theorem user_logins_take_precedence (user : list (ActivityHandler Activity)) :
  (∀ h, h ∈ user → _fallback h = false) →
  iter_handlers (builtin ++ user) AUTHENTICATION
  = match List.filter (tag_matches AUTHENTICATION) user with
    | [] => builtin
    | logins => logins
    end.
Proof.
  intros Huser. rewrite iter_handlers_filter, !List.filter_app.
  assert (List.filter (regular_cond AUTHENTICATION) builtin = []) as ->.
  { apply list_filter_nil. intros h [Hf Ha]%builtin_fallback_tagged.
    unfold regular_cond. rewrite Hf, Ha. simpl. by rewrite andb_false_r. }
  assert (List.filter (regular_cond AUTHENTICATION) user
          = List.filter (tag_matches AUTHENTICATION) user) as ->.
  { apply filter_ext_in_list. intros h Hin. unfold regular_cond, tag_matches.
    rewrite (Huser h Hin). simpl. by rewrite andb_true_r. }
  simpl. destruct (List.filter (tag_matches AUTHENTICATION) user) eqn:Hnone; [|done].
  assert (List.filter (fallback_cond AUTHENTICATION) user = []) as ->.
  { rewrite list_filter_nil in Hnone. apply list_filter_nil. intros h Hin.
    specialize (Hnone h Hin). unfold fallback_cond, tag_matches in *.
    rewrite (Huser h Hin). rewrite andb_false_r, orb_false_r.
    by apply orb_false_iff in Hnone as [-> _]. }
  rewrite app_nil_r.
  assert (Hall : ∀ l : list (ActivityHandler Activity),
            (∀ h, h ∈ l → fallback_cond AUTHENTICATION h = true) →
            List.filter (fallback_cond AUTHENTICATION) l = l).
  { induction l as [|h l IH]; intros Hl; simpl; [done|].
    rewrite (Hl h) by (by left). f_equal. apply IH. intros h' Hin. apply Hl. by right. }
  apply Hall. intros h [Hf Ha]%builtin_fallback_tagged.
  unfold fallback_cond, activity_eq. rewrite Hf, Ha.
  rewrite (bool_decide_eq_true_2 (Some AUTHENTICATION = Some AUTHENTICATION)) by done.
  by rewrite orb_true_r.
Qed.

(** The default registry is created on the first access and is then
    returned by every later access; a registry that has been set is the
    one returned, whatever was there before. *)
Theorem default_registry_slot (state : option (OperatorRegistry Activity))
    (registry : OperatorRegistry Activity) :
  get_default_registry AUTHENTICATION piggybacking
    (set_default_registry registry state) = (registry, Some registry)
  ∧ get_default_registry AUTHENTICATION piggybacking
      (get_default_registry AUTHENTICATION piggybacking state).2
    = get_default_registry AUTHENTICATION piggybacking state
  ∧ (get_default_registry AUTHENTICATION piggybacking state).2
    = Some (get_default_registry AUTHENTICATION piggybacking state).1
  ∧ (get_default_registry AUTHENTICATION piggybacking None).1
    = __init__ AUTHENTICATION piggybacking.
Proof. destruct state; done. Qed.
End bootstrap_facts.
End BootstrapFacts.

Section bootstrap_witnesses.
Import SampleExternals.
#[local] Existing Instance externals.

Lemma builtin_logins_witness :
  ActivityRegistry.id <$>
    OperatorRegistry._activities
      (SmartOperatorRegistry.__init__ Sample.AUTHENTICATION SampleBootstrap.with_client)
  = ["login_via_client"]
  ∧ SmartOperatorRegistry.has_client SampleBootstrap.in_cluster = false.
Proof.
  destruct (BootstrapFacts.builtin_logins Sample.AUTHENTICATION SampleBootstrap.in_cluster)
    as (_ & _ & Hthird & _).
  split; [reflexivity|].
  apply (Hthird {| ActivityRegistry.id := "login_with_service_account";
                   ActivityRegistry.fn := 1004;
                   ActivityRegistry.activity := Some Sample.AUTHENTICATION;
                   ActivityRegistry._fallback := true |}).
  - by left.
  - by right.
Defined.

Lemma user_logins_take_precedence_witness :
  ActivityRegistry.iter_handlers
    (OperatorRegistry._activities
       (SmartOperatorRegistry.__init__ Sample.AUTHENTICATION SampleBootstrap.in_cluster)
     ++ [Sample.login_custom]) Sample.AUTHENTICATION
  = [Sample.login_custom].
Proof.
  rewrite (BootstrapFacts.user_logins_take_precedence Sample.AUTHENTICATION
             SampleBootstrap.in_cluster [Sample.login_custom]).
  - reflexivity.
  - intros h [->|[]%elem_of_nil]%elem_of_cons. reflexivity.
Defined.
End bootstrap_witnesses.

(** ** More on the predicate engine *)

Section engine_more.
Context `{Externals}.
Implicit Types (handler : AnyHandler) (cause : AnyCause) (kwargs : gmap string KwArg).

Lemma match_prematch handler cause :
  match_ handler cause = true → prematch handler cause = true.
Proof.
  rewrite match_conjunction, prematch_conjunction, !andb_true_iff. tauto.
Qed.

Lemma match_resource handler cause :
  match_ handler cause = true →
  _matches_resource handler (resource (cause_base cause)) = true.
Proof. rewrite match_conjunction, !andb_true_iff. tauto. Qed.

Lemma prematch_resource handler cause :
  prematch handler cause = true →
  _matches_resource handler (resource (cause_base cause)) = true.
Proof. rewrite prematch_conjunction, !andb_true_iff. tauto. Qed.

(** The field-change filter constrains only a changing handler with a
    field on a changing cause: for every other handler or cause, [match]
    and [prematch] give the same answer. *)
Theorem match_is_prematch_without_field_changes handler cause :
  ((∀ h, handler ≠ ChangingH h) → match_ handler cause = prematch handler cause)
  ∧ ((∀ c, cause ≠ ChangingC c) → match_ handler cause = prematch handler cause)
  ∧ (field_truthy (field (base handler)) = false →
       match_ handler cause = prematch handler cause).
Proof.
  assert (Hfree : run (_matches_field_changes handler cause) = true →
                  match_ handler cause = prematch handler cause).
  { intros Hrun. rewrite match_conjunction, prematch_conjunction, Hrun. done. }
  split; [|split]; intros Hkind; apply Hfree; unfold run.
  - destruct handler as [h|h|h|h]; try done. by destruct (Hkind h).
  - destruct handler as [h|h|h|h], cause as [c|c|c]; try done. by destruct (Hkind c).
  - destruct handler as [h|h|h|h], cause as [c|c|c]; try done.
    simpl in *. by rewrite Hkind.
Qed.

Lemma existsb_orb {A} (f g : A → bool) (l : list A) :
  existsb (λ x, f x || g x) l = existsb f l || existsb g l.
Proof.
  induction l as [|x l IH]; simpl; [done|]. rewrite IH.
  destruct (f x), (g x), (existsb f l), (existsb g l); done.
Qed.

(** The values that the field-value filter looks at: the new and the old
    state of a changing cause, or the body of any other cause. *)
Lemma _matches_field_values_run handler cause kwargs :
  kwargs_ok cause kwargs →
  field_truthy (field (base handler)) = true →
  (_matches_field_values handler cause kwargs).1
  = let path := default [] (field (base handler)) in
    let values :=
      match cause with
      | ChangingC c => [resolve (cc_new c) path; resolve (cc_old c) path]
      | _ => [resolve (body (cause_base cause)) path]
      end in
    let filter := value (base handler) in
    (filter_is_none filter && existsb (λ v, negb (is_absent v)) values)
    || (filter_is PRESENT filter && existsb (λ v, negb (is_absent v)) values)
    || (filter_is ABSENT filter && existsb is_absent values)
    || existsb (λ v, filter_call filter v (cause_kwargs (cause_base cause))) values
    || existsb (λ v, filter_eq filter v) values.
Proof.
  intros Hok Hfield. unfold _matches_field_values. rewrite Hfield. cbn [negb].
  cbv zeta. rewrite (ensure_kwargs_ok _ _ Hok). cbn [fst].
  by destruct cause.
Qed.

(** A handler without a field passes the field-value filter. With a
    field, the filter holds when one of the resolved values (the new or the
    old state of a changing cause, the body of another cause) satisfies the
    handler's [value]: present, for [None] and the present token; absent,
    for the absent token; accepted by the callable; or equal to the value. *)
Theorem matches_field_values_spec handler cause kwargs :
  kwargs_ok cause kwargs →
  let path := default [] (field (base handler)) in
  let values :=
    match cause with
    | ChangingC c => [resolve (cc_new c) path; resolve (cc_old c) path]
    | _ => [resolve (body (cause_base cause)) path]
    end in
  (field_truthy (field (base handler)) = false →
     (_matches_field_values handler cause kwargs).1 = true)
  ∧ (field_truthy (field (base handler)) = true →
     (_matches_field_values handler cause kwargs).1
     = existsb (λ v, if filter_is_none (value (base handler))
                     then negb (is_absent v)
                     else accepts cause (value (base handler)) v) values).
Proof.
  intros Hok path values. split; intros Hfield.
  - unfold _matches_field_values. by rewrite Hfield.
  - rewrite _matches_field_values_run by done. subst path values. cbv zeta.
    destruct (value (base handler)) as [|[]|f|v], cause as [c|c|c];
      cbn [filter_is_none filter_is filter_call filter_eq accepts existsb andb orb];
      rewrite ?bool_decide_eq_true_2, ?bool_decide_eq_false_2 by done;
      repeat match goal with
             | |- context [resolve ?b ?p] => destruct (resolve b p)
             end;
      cbn [is_absent negb andb orb];
      repeat match goal with
             | |- context [py_eq ?a ?b] => destruct (py_eq a b)
             | |- context [f ?a ?b] => destruct (f a b)
             end; reflexivity.
Qed.
End engine_more.

Section engine_more_witnesses.
Import SampleExternals SampleResources.
#[local] Existing Instance externals.

Lemma match_is_prematch_without_field_changes_witness :
  match_ (PlainH on_prod) (ChangingC (update (labelled "prod") (labelled "dev")))
  = prematch (PlainH on_prod) (ChangingC (update (labelled "prod") (labelled "dev"))).
Proof.
  destruct (match_is_prematch_without_field_changes (PlainH on_prod)
              (ChangingC (update (labelled "prod") (labelled "dev")))) as (Hplain & _).
  apply Hplain. discriminate.
Defined.

Lemma matches_field_values_spec_witness :
  (_matches_field_values (ChangingH on_spec_x)
     (ChangingC (update (spec_x 1) JNull)) ∅).1 = true
  ∧ (_matches_field_values (ChangingH on_spec_x) (PlainC (pod_cause JNull)) ∅).1 = false.
Proof.
  destruct (matches_field_values_spec (ChangingH on_spec_x)
              (ChangingC (update (spec_x 1) JNull)) ∅ (or_introl eq_refl))
    as (_ & Hremoved).
  destruct (matches_field_values_spec (ChangingH on_spec_x)
              (PlainC (pod_cause JNull)) ∅ (or_introl eq_refl))
    as (_ & Hmissing).
  split.
  - rewrite Hremoved; reflexivity.
  - rewrite Hmissing; reflexivity.
Defined.
End engine_more_witnesses.

(** ** More on the resource registries *)

Module RegistryMore.
Import ResourceRegistry ResourceRegistryFacts.

Section generic_more.
Context `{Externals} {HT : Type} `{!ResourceHandlerT HT}.
Implicit Types (self : list HT) (handler : HT) (cond : HT → bool).

Lemma yield_if_ext cond cond' self :
  (∀ handler, handler ∈ self → cond handler = cond' handler) →
  yield_if cond self = yield_if cond' self.
Proof.
  induction self as [|h self IH]; intros Hext; simpl; [done|].
  rewrite (Hext h) by (by left). rewrite IH; [done|].
  intros h' Hin. apply Hext. by right.
Qed.

Lemma yield_if_and cond cond' self :
  yield_if (λ handler, cond handler && cond' handler) self
  = yield_if cond (yield_if cond' self).
Proof.
  induction self as [|h self IH]; simpl; [done|].
  destruct (cond' h); simpl; rewrite ?andb_false_r, ?andb_true_r.
  - by destruct (cond h); rewrite IH.
  - done.
Qed.

Lemma yield_if_app cond self more :
  yield_if cond (self ++ more) = yield_if cond self ++ yield_if cond more.
Proof.
  induction self as [|h self IH]; simpl; [done|].
  destruct (cond h); simpl; by rewrite IH.
Qed.

Lemma yield_if_nil cond self :
  yield_if cond self = [] ↔ ∀ handler, handler ∈ self → cond handler = false.
Proof.
  induction self as [|h self IH]; simpl.
  - split; [by intros _ ? ?%elem_of_nil | done].
  - destruct (cond h) eqn:Hh.
    + split; [done|]. intros Hall.
      assert (true = false); [|done]. rewrite <-Hh. apply Hall. by left.
    + rewrite IH. split.
      * intros Hall h' [->|Hin]%elem_of_cons; [done | by apply Hall].
      * intros Hall h' Hin. apply Hall. by right.
Qed.

Lemma not_excluded_empty handler : not_excluded ∅ handler = true.
Proof. apply bool_decide_eq_true_2, not_elem_of_empty. Qed.

Lemma has_handlers_false self resource :
  has_handlers self resource = false
  ↔ ∀ handler, handler ∈ self → _matches_resource (upcast handler) resource = false.
Proof.
  induction self as [|h self IH]; simpl.
  - split; [by intros _ ? ?%elem_of_nil | done].
  - destruct (_matches_resource (upcast h) resource) eqn:Hh.
    + split; [done|]. intros Hall.
      assert (true = false); [|done]. rewrite <-Hh. apply Hall. by left.
    + rewrite IH. split.
      * intros Hall h' [->|Hin]%elem_of_cons; [done | by apply Hall].
      * intros Hall h' Hin. apply Hall. by right.
Qed.

(** What [get_handlers] makes of the yielded handlers. *)
Lemma deduplicated_yield_if cond self :
  _deduplicated (yield_if cond self) `sublist_of` self
  ∧ NoDup (handler_key <$> _deduplicated (yield_if cond self))
  ∧ (∀ handler, handler ∈ _deduplicated (yield_if cond self) →
       handler ∈ self ∧ cond handler = true)
  ∧ (∀ handler, handler ∈ self → cond handler = true →
       ∃ handler', handler' ∈ _deduplicated (yield_if cond self)
                   ∧ handler_key handler' = handler_key handler).
Proof.
  split; [|split; [|split]].
  - etrans; [apply _deduplicated_loop_sublist | apply yield_if_sublist].
  - apply _deduplicated_loop_NoDup.
  - intros handler Hin%elem_of_deduplicated. by apply elem_of_yield_if.
  - intros handler Hin Hcond.
    assert (handler ∈ yield_if cond self) as Hyielded by by apply elem_of_yield_if.
    destruct (_deduplicated_loop_covers ∅ _ _ Hyielded) as [[]%elem_of_empty|Hkey].
    apply list_elem_of_fmap in Hkey as (handler' & Hkey & Hin').
    by exists handler'.
Qed.
End generic_more.

Section registries_more.
Context `{Externals}.
Implicit Types (excluded : gset string) (resource : Resource).

Lemma changing_yields_excluded cause excluded (handler : ChangingHandler) :
  ChangingRegistry.yields cause excluded handler
  = not_excluded excluded handler && ChangingRegistry.yields cause ∅ handler.
Proof.
  unfold ChangingRegistry.yields. rewrite not_excluded_empty.
  by destruct (not_excluded excluded handler).
Qed.

Lemma webhooks_yields_excluded cause excluded (handler : WebhookHandler) :
  WebhooksRegistry.yields cause excluded handler
  = not_excluded excluded handler && WebhooksRegistry.yields cause ∅ handler.
Proof.
  unfold WebhooksRegistry.yields. rewrite not_excluded_empty.
  by destruct (not_excluded excluded handler).
Qed.

Lemma changing_yields_match cause excluded (handler : ChangingHandler) :
  ChangingRegistry.yields cause excluded handler = true →
  (id (ch_base handler) ∉ excluded)
  ∧ match_ (ChangingH handler) (ChangingC cause) = true.
Proof.
  unfold ChangingRegistry.yields.
  pose proof (not_excluded_spec excluded handler) as Hexcluded. simpl in Hexcluded.
  destruct (not_excluded excluded handler); [|done].
  destruct (ChangingRegistry.reason_ok handler cause); [|done].
  destruct (ch_initial handler && negb (cc_initial cause)); [done|].
  destruct (ch_initial handler && cc_deleted cause && negb (ch_deleted handler)); [done|].
  destruct (match_ _ _); [|done]. intros _. split; [by apply Hexcluded | done].
Qed.

Lemma webhooks_yields_match cause excluded (handler : WebhookHandler) :
  WebhooksRegistry.yields cause excluded handler = true →
  match_ (WebhookH handler) (WebhookC cause) = true.
Proof.
  unfold WebhooksRegistry.yields.
  destruct (not_excluded excluded handler); [|done].
  destruct (_ && _); [|done]. destruct (_ || _); [|done].
  by destruct (match_ _ _).
Qed.

(** In every resource registry, excluding ids does nothing but drop the
    handlers with these ids from what is yielded without exclusions. *)
Theorem excluded_ids_are_dropped excluded :
  (∀ self cause,
     IndexingRegistry.iter_handlers self cause excluded
     = yield_if (not_excluded excluded) (IndexingRegistry.iter_handlers self cause ∅))
  ∧ (∀ self cause,
     WatchingRegistry.iter_handlers self cause excluded
     = yield_if (not_excluded excluded) (WatchingRegistry.iter_handlers self cause ∅))
  ∧ (∀ self cause,
     SpawningRegistry.iter_handlers self cause excluded
     = yield_if (not_excluded excluded) (SpawningRegistry.iter_handlers self cause ∅))
  ∧ (∀ self cause,
     ChangingRegistry.iter_handlers self cause excluded
     = yield_if (not_excluded excluded) (ChangingRegistry.iter_handlers self cause ∅))
  ∧ (∀ self cause,
     WebhooksRegistry.iter_handlers self cause excluded
     = yield_if (not_excluded excluded) (WebhooksRegistry.iter_handlers self cause ∅)).
Proof.
  repeat split; intros self cause.
  - unfold IndexingRegistry.iter_handlers. rewrite <-yield_if_and.
    apply yield_if_ext. intros h _. rewrite not_excluded_empty.
    by destruct (not_excluded excluded h).
  - unfold WatchingRegistry.iter_handlers. rewrite <-yield_if_and.
    apply yield_if_ext. intros h _. rewrite not_excluded_empty.
    by destruct (not_excluded excluded h).
  - unfold SpawningRegistry.iter_handlers. rewrite <-yield_if_and.
    apply yield_if_ext. intros h _. rewrite not_excluded_empty.
    by destruct (not_excluded excluded h).
  - unfold ChangingRegistry.iter_handlers. rewrite <-yield_if_and.
    apply yield_if_ext. intros h _. apply changing_yields_excluded.
  - unfold WebhooksRegistry.iter_handlers. rewrite <-yield_if_and.
    apply yield_if_ext. intros h _. apply webhooks_yields_excluded.
Qed.

(** [get_handlers] of the changing and of the webhook registry returns
    yielded handlers only, in registration order and with pairwise distinct
    (callable identity, id) pairs, and keeps the pair of every yielded
    handler. *)
Theorem get_handlers_selects excluded :
  (∀ self cause,
     ChangingRegistry.get_handlers self cause excluded `sublist_of` self
     ∧ NoDup (handler_key <$> ChangingRegistry.get_handlers self cause excluded)
     ∧ (∀ handler, handler ∈ ChangingRegistry.get_handlers self cause excluded →
          handler ∈ ChangingRegistry.iter_handlers self cause excluded)
     ∧ (∀ handler, handler ∈ ChangingRegistry.iter_handlers self cause excluded →
          ∃ handler', handler' ∈ ChangingRegistry.get_handlers self cause excluded
                      ∧ handler_key handler' = handler_key handler))
  ∧ (∀ self cause,
     WebhooksRegistry.get_handlers self cause excluded `sublist_of` self
     ∧ NoDup (handler_key <$> WebhooksRegistry.get_handlers self cause excluded)
     ∧ (∀ handler, handler ∈ WebhooksRegistry.get_handlers self cause excluded →
          handler ∈ WebhooksRegistry.iter_handlers self cause excluded)
     ∧ (∀ handler, handler ∈ WebhooksRegistry.iter_handlers self cause excluded →
          ∃ handler', handler' ∈ WebhooksRegistry.get_handlers self cause excluded
                      ∧ handler_key handler' = handler_key handler)).
Proof.
  split; intros self cause.
  - unfold ChangingRegistry.get_handlers, ChangingRegistry.iter_handlers.
    destruct (deduplicated_yield_if (ChangingRegistry.yields cause excluded) self)
      as (Hsub & Hnodup & Hin & Hkey).
    repeat split; [done..| |].
    + intros handler Hh. apply elem_of_yield_if. by apply Hin.
    + intros handler [Hh Hcond]%elem_of_yield_if. by apply Hkey.
  - unfold WebhooksRegistry.get_handlers, WebhooksRegistry.iter_handlers.
    destruct (deduplicated_yield_if (WebhooksRegistry.yields cause excluded) self)
      as (Hsub & Hnodup & Hin & Hkey).
    repeat split; [done..| |].
    + intros handler Hh. apply elem_of_yield_if. by apply Hin.
    + intros handler [Hh Hcond]%elem_of_yield_if. by apply Hkey.
Qed.

(** Registering one more handler never changes what the earlier handlers
    give: the new handler is yielded last, if it is yielded, and the earlier
    result of [get_handlers] stays as the beginning of the new one. *)
Theorem append_keeps_earlier excluded :
  (∀ self cause handler,
     ChangingRegistry.iter_handlers (GenericRegistry.append self handler) cause excluded
     = ChangingRegistry.iter_handlers self cause excluded
       ++ (if ChangingRegistry.yields cause excluded handler then [handler] else [])
     ∧ ChangingRegistry.get_handlers self cause excluded
       `prefix_of` ChangingRegistry.get_handlers
                     (GenericRegistry.append self handler) cause excluded)
  ∧ (∀ self cause handler,
     WebhooksRegistry.iter_handlers (GenericRegistry.append self handler) cause excluded
     = WebhooksRegistry.iter_handlers self cause excluded
       ++ (if WebhooksRegistry.yields cause excluded handler then [handler] else [])
     ∧ WebhooksRegistry.get_handlers self cause excluded
       `prefix_of` WebhooksRegistry.get_handlers
                     (GenericRegistry.append self handler) cause excluded).
Proof.
  split; intros self cause handler.
  - assert (Happ : ChangingRegistry.iter_handlers (GenericRegistry.append self handler)
                     cause excluded
                   = ChangingRegistry.iter_handlers self cause excluded
                     ++ (if ChangingRegistry.yields cause excluded handler
                         then [handler] else [])).
    { unfold ChangingRegistry.iter_handlers, GenericRegistry.append.
      rewrite yield_if_app. simpl. by destruct (ChangingRegistry.yields _ _ _). }
    split; [done|]. unfold ChangingRegistry.get_handlers. rewrite Happ.
    unfold _deduplicated. rewrite _deduplicated_loop_app. by eexists.
  - assert (Happ : WebhooksRegistry.iter_handlers (GenericRegistry.append self handler)
                     cause excluded
                   = WebhooksRegistry.iter_handlers self cause excluded
                     ++ (if WebhooksRegistry.yields cause excluded handler
                         then [handler] else [])).
    { unfold WebhooksRegistry.iter_handlers, GenericRegistry.append.
      rewrite yield_if_app. simpl. by destruct (WebhooksRegistry.yields _ _ _). }
    split; [done|]. unfold WebhooksRegistry.get_handlers. rewrite Happ.
    unfold _deduplicated. rewrite _deduplicated_loop_app. by eexists.
Qed.

Lemma deduplicated_nil {HT : Type} `{Handler HT} (src : list HT) :
  _deduplicated src = [] ↔ src = [].
Proof.
  split; [|by intros ->]. destruct src as [|h src]; [done|].
  unfold _deduplicated. simpl. by rewrite decide_False by apply not_elem_of_empty.
Qed.

(** The spawning registry asks for a finalizer exactly when one of the
    handlers it yields for the cause requires one. *)
Theorem spawning_requires_finalizer (self : list SpawningHandler) cause excluded :
  SpawningRegistry.requires_finalizer self cause excluded = true
  ↔ ∃ handler, handler ∈ SpawningRegistry.iter_handlers self cause excluded
               ∧ sh_requires_finalizer handler = true.
Proof.
  unfold SpawningRegistry.iter_handlers.
  setoid_rewrite elem_of_yield_if.
  induction self as [|h self IH]; simpl.
  - split; [done|]. by intros (? & [?%elem_of_nil _] & _).
  - destruct (not_excluded excluded h) eqn:Hexcluded,
      (sh_requires_finalizer h) eqn:Hflag,
      (match_ (SpawningH h) (PlainC cause)) eqn:Hmatch; cbn [andb];
      try (split; [intros _; exists h; rewrite Hexcluded, Hmatch;
                   repeat split; [by left | done..] | done]);
      rewrite IH; (split;
        [ intros (h' & [Hin Hcond] & Hf); exists h'; repeat split; [by right | done..]
        | intros (h' & [[->|Hin]%elem_of_cons Hcond] & Hf);
          [ rewrite ?Hexcluded, ?Hmatch in Hcond; congruence
          | exists h'; repeat split; done ] ]).
Qed.

Lemma changing_requires_finalizer_exists (self : list ChangingHandler)
    (cause : AnyCause) excluded :
  ChangingRegistry.requires_finalizer self cause excluded = true
  ↔ ∃ handler, handler ∈ self
      ∧ (id (ch_base handler) ∉ excluded)
      ∧ ch_requires_finalizer handler = true
      ∧ prematch (ChangingH handler) cause = true.
Proof.
  induction self as [|h self IH]; simpl.
  - split; [done|]. by intros (? & ?%elem_of_nil & _).
  - pose proof (not_excluded_spec excluded h) as Hexcluded. simpl in Hexcluded.
    destruct (not_excluded excluded h && (ch_requires_finalizer h
                && prematch (ChangingH h) cause)) eqn:Hh.
    + split; [|done]. intros _. exists h.
      apply andb_true_iff in Hh as [He [Hf Hp]%andb_true_iff].
      repeat split; [by left | by apply Hexcluded | done..].
    + rewrite IH. split.
      * intros (h' & Hin & Hrest). exists h'. split; [by right | done].
      * intros (h' & [->|Hin]%elem_of_cons & He & Hf & Hp); [|by exists h'].
        apply Hexcluded in He. rewrite He, Hf, Hp in Hh. done.
Qed.

(** The changing registry asks for a finalizer exactly when a registered
    handler that is not excluded requires one and prematches the cause,
    whatever its reason and its initial mark. In particular it does so
    whenever a handler yielded for the cause requires a finalizer. *)
Theorem changing_requires_finalizer (self : list ChangingHandler) (cause : AnyCause)
    excluded :
  (ChangingRegistry.requires_finalizer self cause excluded = true
     ↔ ∃ handler, handler ∈ self
         ∧ (id (ch_base handler) ∉ excluded)
         ∧ ch_requires_finalizer handler = true
         ∧ prematch (ChangingH handler) cause = true)
  ∧ (∀ c handler,
       cause = ChangingC c →
       handler ∈ ChangingRegistry.iter_handlers self c excluded →
       ch_requires_finalizer handler = true →
       ChangingRegistry.requires_finalizer self cause excluded = true).
Proof.
  split; [apply changing_requires_finalizer_exists|].
  intros c handler -> [Hin Hyields]%elem_of_yield_if Hflag.
  apply changing_requires_finalizer_exists. exists handler.
  destruct (changing_yields_match _ _ _ Hyields) as [Hexcluded Hmatch].
  repeat split; [done..|]. by apply match_prematch.
Qed.

(** The changing registry prematches a cause exactly when one of its
    handlers does; it does whenever it yields a handler for the cause or
    asks for a finalizer. *)
Theorem changing_prematch (self : list ChangingHandler) cause :
  (ChangingRegistry.prematch self cause = true
     ↔ ∃ handler, handler ∈ self
                  ∧ prematch (ChangingH handler) (ChangingC cause) = true)
  ∧ (∀ excluded, ChangingRegistry.iter_handlers self cause excluded ≠ [] →
       ChangingRegistry.prematch self cause = true)
  ∧ (∀ excluded,
       ChangingRegistry.requires_finalizer self (ChangingC cause) excluded = true →
       ChangingRegistry.prematch self cause = true).
Proof.
  assert (Hiff : ChangingRegistry.prematch self cause = true
     ↔ ∃ handler, handler ∈ self
                  ∧ prematch (ChangingH handler) (ChangingC cause) = true).
  { induction self as [|h self IH]; simpl.
    - split; [done|]. by intros (? & ?%elem_of_nil & _).
    - destruct (prematch (ChangingH h) (ChangingC cause)) eqn:Hh.
      + split; [|done]. intros _. exists h. split; [by left | done].
      + rewrite IH. split.
        * intros (h' & Hin & Hp). exists h'. split; [by right | done].
        * intros (h' & [->|Hin]%elem_of_cons & Hp); [congruence | by exists h']. }
  split; [done|]. split.
  - intros excluded Hyielded. apply Hiff.
    destruct (ChangingRegistry.iter_handlers self cause excluded) as [|h l] eqn:Hiter;
      [done|].
    assert (h ∈ ChangingRegistry.iter_handlers self cause excluded) as Hin.
    { rewrite Hiter. by left. }
    apply elem_of_yield_if in Hin as [Hin Hyields].
    exists h. split; [done|].
    apply match_prematch. by apply (changing_yields_match _ _ _ Hyields).
  - intros excluded Hfinalizer. apply Hiff.
    apply changing_requires_finalizer_exists in Hfinalizer as (h & Hin & _ & _ & Hp).
    by exists h.
Qed.

Lemma changing_has_handlers_false (self : list ChangingHandler) (kind : Resource) :
  has_handlers self kind = false
  ↔ ∀ handler, handler ∈ self → _matches_resource (ChangingH handler) kind = false.
Proof. exact (has_handlers_false self kind). Qed.

(** The changing registry has handlers for a resource exactly when
    [get_resource_handlers] returns some; the handlers it returns are
    registered handlers whose selector is unset or accepts the resource,
    with pairwise distinct (callable identity, id) pairs. *)
Theorem get_resource_handlers_spec (self : list ChangingHandler) (kind : Resource) :
  (has_handlers self kind = true
     ↔ ChangingRegistry.get_resource_handlers self kind ≠ [])
  ∧ (∀ handler, handler ∈ ChangingRegistry.get_resource_handlers self kind →
       handler ∈ self ∧ _matches_resource (ChangingH handler) kind = true)
  ∧ NoDup (handler_key <$> ChangingRegistry.get_resource_handlers self kind).
Proof.
  unfold ChangingRegistry.get_resource_handlers.
  destruct (deduplicated_yield_if
              (λ handler, _matches_resource (ChangingH handler) kind) self)
    as (_ & Hnodup & Hin & _).
  split; [|by split].
  rewrite deduplicated_nil, yield_if_nil, <-changing_has_handlers_false.
  by destruct (has_handlers self kind).
Qed.

Lemma elem_of_get_extra_fields (self : list ChangingHandler) (kind : Resource)
    (path : list string) :
  path ∈ get_extra_fields self kind
  ↔ ∃ handler, handler ∈ self
      ∧ _matches_resource (ChangingH handler) kind = true
      ∧ field (ch_base handler) = Some path
      ∧ path ≠ [].
Proof.
  unfold get_extra_fields. rewrite elem_of_list_to_set.
  induction self as [|h self IH]; cbn [iter_extra_fields].
  - split; [by intros ?%elem_of_nil | by intros (? & ?%elem_of_nil & _)].
  - change (upcast h) with (ChangingH h). cbn [base].
    destruct (_matches_resource (ChangingH h) kind) eqn:Hm; cbn [andb].
    + destruct (field (ch_base h)) as [[|key keys]|] eqn:Hf;
        cbn [field_truthy from_option]; unfold Datatypes.id.
      * rewrite IH. split.
        -- intros (h' & Hin & Hrest). exists h'. split; [by right | done].
        -- intros (h' & [->|Hin]%elem_of_cons & Hm' & Hf' & Hne);
             [congruence | by exists h'].
      * rewrite elem_of_cons, IH. split.
        -- intros [->|(h' & Hin & Hrest)].
           ++ exists h. repeat split; [by left | done..].
           ++ exists h'. split; [by right | done].
        -- intros (h' & [->|Hin]%elem_of_cons & Hm' & Hf' & Hne).
           ++ left. congruence.
           ++ right. by exists h'.
      * rewrite IH. split.
        -- intros (h' & Hin & Hrest). exists h'. split; [by right | done].
        -- intros (h' & [->|Hin]%elem_of_cons & Hm' & Hf' & Hne);
             [congruence | by exists h'].
    + rewrite IH. split.
      * intros (h' & Hin & Hrest). exists h'. split; [by right | done].
      * intros (h' & [->|Hin]%elem_of_cons & Hm' & Hf' & Hne);
          [congruence | by exists h'].
Qed.

(** The extra fields of a resource are the non-empty field paths of the
    registered handlers whose selector is unset or accepts the resource;
    handlers without a field or for other resources add nothing. *)
Theorem get_extra_fields_spec (self : list ChangingHandler) (kind : Resource) :
  (∀ path, path ∈ get_extra_fields self kind
           ↔ ∃ handler, handler ∈ self
               ∧ _matches_resource (ChangingH handler) kind = true
               ∧ field (ch_base handler) = Some path
               ∧ path ≠ [])
  ∧ ([] ∉ get_extra_fields self kind).
Proof.
  split; [intros path; apply elem_of_get_extra_fields|].
  intros (h & _ & _ & _ & Hne)%elem_of_get_extra_fields. done.
Qed.

(** A changing registry without handlers for a resource gives nothing
    for it: no resource handlers, no extra fields, and for every cause that
    concerns the resource no handlers, no finalizer and no prematch. *)
Theorem no_handlers_nothing_yielded (self : list ChangingHandler) (kind : Resource) :
  has_handlers self kind = false →
  ChangingRegistry.get_resource_handlers self kind = []
  ∧ get_extra_fields self kind = ∅
  ∧ ∀ cause excluded, resource (cc_base cause) = kind →
      ChangingRegistry.iter_handlers self cause excluded = []
      ∧ ChangingRegistry.get_handlers self cause excluded = []
      ∧ ChangingRegistry.requires_finalizer self (ChangingC cause) excluded = false
      ∧ ChangingRegistry.prematch self cause = false.
Proof.
  intros Hnone. pose proof (proj1 (changing_has_handlers_false self kind) Hnone) as Hall.
  assert (Hresource : yield_if (λ handler, _matches_resource (ChangingH handler) kind) self
                      = []).
  { by apply yield_if_nil. }
  split; [|split].
  - unfold ChangingRegistry.get_resource_handlers. by rewrite Hresource.
  - apply set_eq. intros path. rewrite elem_of_get_extra_fields.
    split; [|by intros ?%elem_of_empty].
    intros (h & Hin & Hm & _). rewrite (Hall h Hin) in Hm. done.
  - intros cause excluded <-.
    assert (Hiter : ChangingRegistry.iter_handlers self cause excluded = []).
    { apply yield_if_nil. intros h Hin. apply not_true_is_false. intros Hyields.
      apply changing_yields_match in Hyields as [_ Hmatch%match_resource].
      simpl in Hmatch. rewrite (Hall h Hin) in Hmatch. done. }
    split; [done|]. split; [|split].
    + unfold ChangingRegistry.get_handlers. by rewrite Hiter.
    + apply not_true_is_false.
      intros (h & Hin & _ & _ & Hp%prematch_resource)%changing_requires_finalizer_exists.
      simpl in Hp. rewrite (Hall h Hin) in Hp. done.
    + apply not_true_is_false. intros Hp.
      assert (∃ h, h ∈ self ∧ prematch (ChangingH h) (ChangingC cause) = true)
        as (h & Hin & Hh%prematch_resource).
      { clear -Hp. induction self as [|h self IH]; simpl in Hp; [done|].
        destruct (prematch (ChangingH h) (ChangingC cause)) eqn:Hh.
        - exists h. split; [by left | done].
        - destruct (IH Hp) as (h' & Hin & Hh'). exists h'. split; [by right | done]. }
      simpl in Hh. rewrite (Hall h Hin) in Hh. done.
Qed.

(** When the cause names a webhook, only handlers with that id are
    yielded, hence at most one if the registered ids are distinct. *)
Theorem webhook_hint_selects_by_id (self : list WebhookHandler) cause excluded
    (webhook : string) :
  wc_webhook cause = Some webhook →
  (∀ handler, handler ∈ WebhooksRegistry.iter_handlers self cause excluded →
     id (wh_base handler) = webhook)
  ∧ (NoDup ((λ handler, id (wh_base handler)) <$> self) →
     length (WebhooksRegistry.iter_handlers self cause excluded) ≤ 1).
Proof.
  intros Hhint.
  assert (Hid : ∀ handler,
            handler ∈ WebhooksRegistry.iter_handlers self cause excluded →
            id (wh_base handler) = webhook).
  { intros handler [_ Hyields]%elem_of_yield_if. unfold WebhooksRegistry.yields in Hyields.
    destruct (not_excluded excluded handler); [|done].
    destruct (WebhooksRegistry.matching_reason cause handler); [|done].
    destruct (WebhooksRegistry.matching_webhook cause handler) eqn:Hw; [|done].
    unfold WebhooksRegistry.matching_webhook in Hw. rewrite Hhint in Hw.
    rewrite bool_decide_eq_false_2 in Hw by done. simpl in Hw.
    apply bool_decide_eq_true in Hw. congruence. }
  split; [done|]. intros Hnodup.
  assert (NoDup ((λ handler, id (wh_base handler))
                   <$> WebhooksRegistry.iter_handlers self cause excluded)) as Hyielded.
  { eapply sublist_NoDup; [done|]. apply fmap_sublist, yield_if_sublist. }
  destruct (WebhooksRegistry.iter_handlers self cause excluded) as [|h1 [|h2 l]];
    simpl; [lia..|].
  exfalso. rewrite !fmap_cons in Hyielded.
  apply NoDup_cons in Hyielded as [Hfresh _]. apply Hfresh.
  rewrite (Hid h1), <-(Hid h2) by (rewrite !elem_of_cons; auto).
  by left.
Qed.
End registries_more.
End RegistryMore.

Section registry_more_witnesses.
Import SampleExternals SampleResources SampleFinalizers RegistryMore.
#[local] Existing Instance externals.

Lemma get_handlers_selects_witness :
  on_update ∈ ChangingRegistry.iter_handlers [on_update; on_update]
                (changing_cause false false) ∅
  ∧ ChangingRegistry.get_handlers [on_update; on_update] (changing_cause false false) ∅
    = [on_update].
Proof.
  destruct (get_handlers_selects ∅) as (Hchanging & _).
  destruct (Hchanging [on_update; on_update] (changing_cause false false))
    as (_ & _ & Hyielded & _).
  split; [|reflexivity]. apply Hyielded. by left.
Defined.

Lemma changing_requires_finalizer_witness :
  ChangingRegistry.requires_finalizer [on_spec_x; on_delete]
    (ChangingC (update (spec_x 1) (spec_x 2))) ∅ = true
  ∧ ChangingRegistry.iter_handlers [on_spec_x; on_delete]
      (update (spec_x 1) (spec_x 2)) ∅ = [on_spec_x].
Proof.
  destruct (changing_requires_finalizer [on_spec_x; on_delete]
              (ChangingC (update (spec_x 1) (spec_x 2))) ∅) as (Hiff & _).
  split; [|reflexivity]. apply Hiff. exists on_delete.
  repeat split; [by right; left | set_solver].
Defined.

Lemma changing_prematch_witness :
  ChangingRegistry.prematch [on_spec_x; on_delete] (update (spec_x 1) (spec_x 2)) = true.
Proof.
  destruct (changing_prematch [on_spec_x; on_delete] (update (spec_x 1) (spec_x 2)))
    as (_ & Hyielded & _).
  apply (Hyielded ∅). discriminate.
Defined.

Lemma get_resource_handlers_spec_witness :
  _matches_resource (ChangingH on_delete) "Pod" = true
  ∧ ResourceRegistry.has_handlers [on_delete] "Service" = false.
Proof.
  destruct (get_resource_handlers_spec [on_delete] "Pod") as (_ & Hin & _).
  destruct (get_resource_handlers_spec [on_delete] "Service") as (Hiff & _).
  split.
  - apply (Hin on_delete). by left.
  - apply not_true_is_false. intros Hhas%Hiff. by apply Hhas.
Defined.

Lemma no_handlers_nothing_yielded_witness :
  ChangingRegistry.get_handlers [on_delete; on_spec_x]
    {| cc_base := {| resource := "Service"; body := JNull; cause_kwargs := ∅ |};
       cc_initial := false; cc_reason := DELETE;
       cc_old := JNull; cc_new := JNull; cc_deleted := true |} ∅ = [].
Proof.
  destruct (no_handlers_nothing_yielded [on_delete; on_spec_x] "Service" eq_refl)
    as (_ & _ & Hcause).
  apply Hcause. reflexivity.
Defined.

Lemma webhook_hint_selects_by_id_witness :
  length (WebhooksRegistry.iter_handlers [validating_hook; mutating_hook]
            {| wc_base := pod_cause JNull; wc_reason := None;
               wc_webhook := Some "validate"; wc_operation := Some "CREATE";
               wc_subresource := None |} ∅) ≤ 1.
Proof.
  destruct (webhook_hint_selects_by_id [validating_hook; mutating_hook]
              {| wc_base := pod_cause JNull; wc_reason := None;
                 wc_webhook := Some "validate"; wc_operation := Some "CREATE";
                 wc_subresource := None |} ∅ "validate" eq_refl) as (_ & Hone).
  apply Hone. refine (bool_decide_unpack _ _). vm_compute. exact I.
Defined.
End registry_more_witnesses.
